(** * Domain randomization of the Pupper quadruped model

    A shallow embedding of
    [mujoco_playground/_src/locomotion/pupper/randomize.py] and the
    properties its specification states about it.

    Conventions of the embedding.
    - Scalars are exact rationals ([Q]); float rounding is not modelled, and
      every equation below is a syntactic equality of the computed terms.
    - A rank-1 array is a [list Q], a rank-2 array a list of rows.
    - The array library can raise; fallible operations return a [result].
    - [jax.vmap] first traces the mapped function once, on a placeholder
      key, whatever the size of the batch; then the per-seed results are
      stacked field by field.
    - The random number generator is an interface ([PRNG]): keys, [split]
      and [uniform] come from the array library, not from this repository. *)

From Stdlib Require Import QArith Lqa.
From stdpp Require Import base gmap strings list fin_maps.

Set Default Proof Using "Type".
Local Open Scope Q_scope.

(** ** Errors of the array library *)

Inductive error : Type :=
| ShapeError   (* incompatible shapes for broadcasting *)
| IndexError.  (* index is out of bounds for an axis of size 0 *)

Inductive result (A : Type) : Type :=
| Ok (a : A)
| Err (e : error).
Arguments Ok {A} a.
Arguments Err {A} e.

#[global] Instance result_ret : MRet result := @Ok.
#[global] Instance result_bind : MBind result := λ A B f r,
  match r with Ok a => f a | Err e => Err e end.
#[global] Instance result_fmap : FMap result := λ A B f r,
  match r with Ok a => Ok (f a) | Err e => Err e end.

Definition is_ok {A} (r : result A) : bool :=
  match r with Ok _ => true | Err _ => false end.

(** ** The array operations the source uses

    Out-of-range static indices follow the array library's documented
    behaviour: a read clamps the index, an update is dropped, and an axis of
    size 0 cannot be indexed at all. *)

Abbreviation vec := (list Q) (only parsing).
Abbreviation mat := (list (list Q)) (only parsing).

Module jnp.

(** Binary elementwise operation on rank-1 operands, with broadcasting of
    an operand of length 1. *)
Definition broadcast2 (f : Q → Q → Q) (xs ys : vec) : result vec :=
  if decide (length xs = length ys) then Ok (zip_with f xs ys)
  else match xs, ys with
       | [x], _ => Ok (f x <$> ys)
       | _, [y] => Ok ((λ x, f x y) <$> xs)
       | _, _ => Err ShapeError
       end.

Definition multiply : vec → vec → result vec := broadcast2 Qmult.
Definition add : vec → vec → result vec := broadcast2 Qplus.

(** [x[k:]] *)
Definition slice_from {A} (k : nat) (xs : list A) : list A := drop k xs.

(** [x.at[k:].set(v)]: [v] is broadcast to the shape of the slice. *)
Definition at_from_set (k : nat) (xs v : vec) : result vec :=
  let n := (length xs - k)%nat in
  if decide (length v = n) then Ok (take k xs ++ v)
  else match v with
       | [y] => Ok (take k xs ++ replicate n y)
       | _ => Err ShapeError
       end.

(** [x[i]] along the leading axis (static index, clamped). *)
Definition getitem {A} (i : nat) (xs : list A) : result A :=
  match xs !! (i `min` (length xs - 1))%nat with
  | Some x => Ok x
  | None => Err IndexError
  end.

(** [x.at[i].set(s)] for a scalar [s] in a rank-1 array. *)
Definition at_set (i : nat) (xs : vec) (s : Q) : result vec :=
  match xs with
  | [] => Err IndexError
  | _ => Ok (<[i:=s]> xs)
  end.

Definition ncols (x : mat) : nat :=
  match x with [] => 0%nat | r :: _ => length r end.

(** [x.at[i].set(row)] for a rank-2 array: the row is broadcast to the
    width of [x]. *)
Definition at_row_set (i : nat) (x : mat) (row : vec) : result mat :=
  match x with
  | [] => Err IndexError
  | _ =>
      if decide (length row = ncols x) then Ok (<[i:=row]> x)
      else match row with
           | [y] => Ok (<[i:=replicate (ncols x) y]> x)
           | _ => Err ShapeError
           end
  end.

(** [x.at[i, j].set(s)] for a rank-2 array. *)
Definition at2_set (i j : nat) (x : mat) (s : Q) : result mat :=
  match x with
  | [] => Err IndexError
  | _ => if decide (ncols x = 0%nat) then Err IndexError
         else Ok (alter (λ r, <[j:=s]> r) i x)
  end.

End jnp.

(** ** The random number generator interface

    [split rng] is [jax.random.split(rng)] unpacked into its two halves;
    [uniform] is [jax.random.uniform] with the default shape [()], and
    [uniform_vec key n] the same with [shape=(n,)].  [tracer] is the
    placeholder key a transformation traces a function with.  The laws are
    the shape and range contract of the library: samples lie in
    [[minval, maxval)]. *)

Class PRNG : Type := {
  prng_key : Type;
  tracer : prng_key;
  split : prng_key → prng_key * prng_key;
  uniform : prng_key → Q → Q → Q;
  uniform_vec : prng_key → nat → Q → Q → vec;
  uniform_vec_length k n lo hi : length (uniform_vec k n lo hi) = n;
  uniform_range k lo hi : lo < hi → lo <= uniform k lo hi ∧ uniform k lo hi < hi;
  uniform_vec_range k n lo hi :
    lo < hi → Forall (λ x, lo <= x ∧ x < hi) (uniform_vec k n lo hi);
}.

(** ** The physics model

    The model is a tree of named leaves.  The six leaves the randomizer
    touches and the static body count it reads are named here; [others]
    holds every other leaf by name.  The record is parametric in the leaf
    types so that the baseline model, the batched model and the axis
    specification are instances of one structure, as in the source. *)

Record Model (V M O : Type) : Type := mkModel {
  nbody : nat;
  geom_friction : M;
  body_ipos : M;
  body_mass : V;
  qpos0 : V;
  dof_frictionloss : V;
  dof_armature : V;
  others : gmap string O;
}.
Arguments mkModel {V M O}.
Arguments nbody {V M O}.
Arguments geom_friction {V M O}.
Arguments body_ipos {V M O}.
Arguments body_mass {V M O}.
Arguments qpos0 {V M O}.
Arguments dof_frictionloss {V M O}.
Arguments dof_armature {V M O}.
Arguments others {V M O}.

(** [jax.tree_util.tree_map]: the leaves are mapped, static data is kept. *)
Definition tree_map {V M O V' M' O'}
    (fv : V → V') (fm : M → M') (fo : O → O')
    (m : Model V M O) : Model V' M' O' :=
  {| nbody := nbody m;
     geom_friction := fm (geom_friction m);
     body_ipos := fm (body_ipos m);
     body_mass := fv (body_mass m);
     qpos0 := fv (qpos0 m);
     dof_frictionloss := fv (dof_frictionloss m);
     dof_armature := fv (dof_armature m);
     others := fo <$> others m |}.

(** [tree_replace] with the six-entry dictionary of the source. *)
Definition tree_replace {V M O V' M'} (m : Model V M O)
    (geom_friction' body_ipos' : M')
    (body_mass' qpos0' dof_frictionloss' dof_armature' : V') : Model V' M' O :=
  {| nbody := nbody m;
     geom_friction := geom_friction';
     body_ipos := body_ipos';
     body_mass := body_mass';
     qpos0 := qpos0';
     dof_frictionloss := dof_frictionloss';
     dof_armature := dof_armature';
     others := others m |}.

(** An entry of the axis specification: [None] (not batched) or [Some 0]. *)
Abbreviation axis := (option nat) (only parsing).

(** ** Constants of the source *)

Definition FLOOR_GEOM_ID : nat := 0.
Definition TORSO_BODY_ID : nat := 1.

Definition FLOOR_FRICTION_MIN : Q := 0.4.
Definition FLOOR_FRICTION_MAX : Q := 1.0.

Definition DOF_FRICTIONLOSS_SCALE_MIN : Q := 0.9.
Definition DOF_FRICTIONLOSS_SCALE_MAX : Q := 1.1.

Definition ARMAUTRE_SCALE_MIN : Q := 1.0.
Definition ARMAUTRE_SCALE_MAX : Q := 1.05.

Definition COM_POS_JITTER_MIN : Q := -0.05.
Definition COM_POS_JITTER_MAX : Q := 0.05.

Definition LINK_MASS_SCALE_MIN : Q := 0.9.
Definition LINK_MASS_SCALE_MAX : Q := 1.1.

Definition ADDED_MASS_MIN : Q := -0.5.
Definition ADDED_MASS_MAX : Q := 0.5.

Definition INIT_QPOS_JITTER_MIN : Q := -0.05.
Definition INIT_QPOS_JITTER_MAX : Q := 0.05.

(** ** [jax.vmap]

    The mapped function is traced once on a placeholder argument, whatever
    the size of the batch, and an error of the trace is the error of the
    call: an ill-shaped operand raises on the empty batch too.  The mapped
    function returns a tuple of six arrays; the batched result is the tuple
    of the six stacks, one slice per seed, in seed order. *)

Fixpoint map_result {K A} (f : K → result A) (xs : list K) : result (list A) :=
  match xs with
  | [] => Ok []
  | x :: xs' => y ← f x; ys ← map_result f xs'; Ok (y :: ys)
  end.

Definition stack6 {A B C D E F} (rs : list (A * B * C * D * E * F))
  : list A * list B * list C * list D * list E * list F :=
  ((λ r, r.1.1.1.1.1) <$> rs, (λ r, r.1.1.1.1.2) <$> rs,
   (λ r, r.1.1.1.2) <$> rs, (λ r, r.1.1.2) <$> rs,
   (λ r, r.1.2) <$> rs, (λ r, r.2) <$> rs).

Definition vmap {K A B C D E F} (placeholder : K)
    (f : K → result (A * B * C * D * E * F)) (xs : list K)
  : result (list A * list B * list C * list D * list E * list F) :=
  _ ← f placeholder; stack6 <$> map_result f xs.

(** ** The source: [domain_randomize] and its inner [rand_dynamics] *)

Section randomize.
Context `{G : PRNG} {O : Type}.

Definition rand_dynamics (model : Model vec mat O) (rng : prng_key)
  : result (mat * mat * vec * vec * vec * vec) :=
  (* Floor friction: =U(0.4, 1.0). *)
  let '(rng, key) := split rng in
  geom_friction ← jnp.at2_set FLOOR_GEOM_ID 0 (geom_friction model)
    (uniform key FLOOR_FRICTION_MIN FLOOR_FRICTION_MAX);
  (* Scale static friction. *)
  let '(rng, key) := split rng in
  frictionloss ← jnp.multiply (jnp.slice_from 6 (dof_frictionloss model))
    (uniform_vec key 12 DOF_FRICTIONLOSS_SCALE_MIN DOF_FRICTIONLOSS_SCALE_MAX);
  dof_frictionloss ← jnp.at_from_set 6 (dof_frictionloss model) frictionloss;
  (* Scale armature. *)
  let '(rng, key) := split rng in
  armature ← jnp.multiply (jnp.slice_from 6 (dof_armature model))
    (uniform_vec key 12 ARMAUTRE_SCALE_MIN ARMAUTRE_SCALE_MAX);
  dof_armature ← jnp.at_from_set 6 (dof_armature model) armature;
  (* Jitter center of mass position. *)
  let '(rng, key) := split rng in
  let dpos := uniform_vec key 3 COM_POS_JITTER_MIN COM_POS_JITTER_MAX in
  torso_ipos ← jnp.getitem TORSO_BODY_ID (body_ipos model);
  torso_ipos ← jnp.add torso_ipos dpos;
  body_ipos ← jnp.at_row_set TORSO_BODY_ID (body_ipos model) torso_ipos;
  (* Scale all link masses. *)
  let '(rng, key) := split rng in
  let dmass := uniform_vec key (nbody model)
                 LINK_MASS_SCALE_MIN LINK_MASS_SCALE_MAX in
  scaled ← jnp.multiply (body_mass model) dmass;
  body_mass ← jnp.at_from_set 0 (body_mass model) scaled;
  (* Add mass to torso. *)
  let '(rng, key) := split rng in
  let dmass := uniform key ADDED_MASS_MIN ADDED_MASS_MAX in
  torso_mass ← jnp.getitem TORSO_BODY_ID body_mass;
  body_mass ← jnp.at_set TORSO_BODY_ID body_mass (torso_mass + dmass);
  (* Jitter qpos0. *)
  let '(rng, key) := split rng in
  let qpos0 := qpos0 model in
  jittered ← jnp.add (jnp.slice_from 7 qpos0)
    (uniform_vec key 12 INIT_QPOS_JITTER_MIN INIT_QPOS_JITTER_MAX);
  qpos0 ← jnp.at_from_set 7 qpos0 jittered;
  Ok (geom_friction, body_ipos, body_mass, qpos0,
      dof_frictionloss, dof_armature).

Definition domain_randomize (model : Model vec mat O) (rng : list prng_key)
  : result (Model (list vec) (list mat) O * Model axis axis axis) :=
  '(friction, body_ipos, body_mass, qpos0, dof_frictionloss, dof_armature)
    ← vmap tracer (rand_dynamics model) rng;
  let in_axes : Model axis axis axis :=
    tree_map (λ _, None) (λ _, None) (λ _, None) model in
  let in_axes :=
    tree_replace in_axes (Some 0%nat) (Some 0%nat)
      (Some 0%nat) (Some 0%nat) (Some 0%nat) (Some 0%nat) in
  let model :=
    tree_replace model friction body_ipos
      body_mass qpos0 dof_frictionloss dof_armature in
  Ok (model, in_axes).

End randomize.

(** ** Valid baseline models

    The fixed layout of the robot: 6 free degrees of freedom followed by 12
    leg joints (18 velocities, 19 positions), at least the world body and
    the torso, at least the floor geometry, three friction coefficients per
    geometry and three coordinates per body. *)

Definition valid_model {O} (m : Model vec mat O) : Prop :=
  length (dof_frictionloss m) = 18%nat ∧
  length (dof_armature m) = 18%nat ∧
  length (qpos0 m) = 19%nat ∧
  (2 ≤ nbody m)%nat ∧
  length (body_mass m) = nbody m ∧
  length (body_ipos m) = nbody m ∧
  Forall (λ r, length r = 3%nat) (body_ipos m) ∧
  (1 ≤ length (geom_friction m))%nat ∧
  Forall (λ r, length r = 3%nat) (geom_friction m).

#[global] Instance valid_model_dec {O} (m : Model vec mat O) :
  Decision (valid_model m).
Proof. unfold valid_model. apply _. Defined.

(** The six arrays of a single-environment model, in the order
    [rand_dynamics] returns them. *)
Definition fields {O} (m : Model vec mat O)
  : mat * mat * vec * vec * vec * vec :=
  (geom_friction m, body_ipos m, body_mass m, qpos0 m,
   dof_frictionloss m, dof_armature m).

(** ** The procedure as the specification words it

    The seven sub-streams of a seed, the seven draws, and the seven
    perturbation steps, each written entry by entry. *)

Module Spec.
Section spec.
Context `{G : PRNG} {O : Type}.

(** The [i]-th sub-stream split from a seed (counting from 0). *)
Fixpoint sub_key (i : nat) (rng : prng_key) : prng_key :=
  match i with
  | 0%nat => (split rng).2
  | S i' => sub_key i' (split rng).1
  end.

Record Draws : Type := mkDraws {
  floor_friction : Q;
  frictionloss_scale : vec;
  armature_scale : vec;
  com_jitter : vec;
  mass_scale : vec;
  added_mass : Q;
  qpos_jitter : vec;
}.

Definition draws (nb : nat) (seed : prng_key) : Draws :=
  {| floor_friction := uniform (sub_key 0 seed) 0.4 1.0;
     frictionloss_scale := uniform_vec (sub_key 1 seed) 12 0.9 1.1;
     armature_scale := uniform_vec (sub_key 2 seed) 12 1.0 1.05;
     com_jitter := uniform_vec (sub_key 3 seed) 3 (-0.05) 0.05;
     mass_scale := uniform_vec (sub_key 4 seed) nb 0.9 1.1;
     added_mass := uniform (sub_key 5 seed) (-0.5) 0.5;
     qpos_jitter := uniform_vec (sub_key 6 seed) 12 (-0.05) 0.05 |}.

(** Entry [i] of [xs] combined with entry [i - k] of [ds], for [i ≥ k];
    entries before [k] are kept. *)
Definition tail_with (f : Q → Q → Q) (k : nat) (ds xs : vec) : vec :=
  imap (λ i x, if decide (k ≤ i)%nat
               then from_option (f x) x (ds !! (i - k)%nat) else x) xs.

(** Entry [i] alone replaced by [g] of it. *)
Definition only_at {A} (i : nat) (g : A → A) (xs : list A) : list A :=
  imap (λ j x, if decide (j = i) then g x else x) xs.

Definition Env : Type := Model vec mat O.

(** 1. Set the primary friction of the ground geometry. *)
Definition step1 (d : Draws) (m : Env) : Env :=
  tree_replace m
    (only_at 0 (only_at 0 (λ _, floor_friction d)) (geom_friction m))
    (body_ipos m) (body_mass m) (qpos0 m)
    (dof_frictionloss m) (dof_armature m).

(** 2. Scale the friction loss of the 12 leg degrees of freedom. *)
Definition step2 (d : Draws) (m : Env) : Env :=
  tree_replace m (geom_friction m) (body_ipos m) (body_mass m) (qpos0 m)
    (tail_with Qmult 6 (frictionloss_scale d) (dof_frictionloss m))
    (dof_armature m).

(** 3. Scale the armature of the 12 leg degrees of freedom. *)
Definition step3 (d : Draws) (m : Env) : Env :=
  tree_replace m (geom_friction m) (body_ipos m) (body_mass m) (qpos0 m)
    (dof_frictionloss m)
    (tail_with Qmult 6 (armature_scale d) (dof_armature m)).

(** 4. Shift the centre-of-mass offset of the torso. *)
Definition step4 (d : Draws) (m : Env) : Env :=
  tree_replace m (geom_friction m)
    (only_at 1 (tail_with Qplus 0 (com_jitter d)) (body_ipos m))
    (body_mass m) (qpos0 m) (dof_frictionloss m) (dof_armature m).

(** 5. Scale every body mass by its own draw. *)
Definition step5 (d : Draws) (m : Env) : Env :=
  tree_replace m (geom_friction m) (body_ipos m)
    (tail_with Qmult 0 (mass_scale d) (body_mass m))
    (qpos0 m) (dof_frictionloss m) (dof_armature m).

(** 6. Add a scalar to the torso mass. *)
Definition step6 (d : Draws) (m : Env) : Env :=
  tree_replace m (geom_friction m) (body_ipos m)
    (only_at 1 (λ x, x + added_mass d) (body_mass m))
    (qpos0 m) (dof_frictionloss m) (dof_armature m).

(** 7. Shift the 12 leg entries of the initial configuration. *)
Definition step7 (d : Draws) (m : Env) : Env :=
  tree_replace m (geom_friction m) (body_ipos m) (body_mass m)
    (tail_with Qplus 7 (qpos_jitter d) (qpos0 m))
    (dof_frictionloss m) (dof_armature m).

(** The seven steps in their fixed order. *)
Definition perturb (model : Env) (seed : prng_key) : Env :=
  let d := draws (nbody model) seed in
  step7 d (step6 d (step5 d (step4 d (step3 d (step2 d (step1 d model)))))).

End spec.
End Spec.

(** ** A small concrete generator and model

    Keys are the nodes of the infinite binary tree, [split] takes the two
    children, and a draw places a hash of the key on a grid of sixteenths
    of the interval.  It is used to run the definitions on examples. *)

Module Toy.

Definition frac (k : Z) : Q := (((k * 37 + 11) `mod` 1009) `mod` 16)%Z # 16.

Definition children (k : Z) : Z * Z := (2 * k + 1, 2 * k + 2)%Z.

Definition draw (k : Z) (lo hi : Q) : Q := lo + (hi - lo) * frac k.

Definition draw_vec (k : Z) (n : nat) (lo hi : Q) : vec :=
  (λ i, draw (k * 31 + Z.of_nat i)%Z lo hi) <$> seq 0 n.

#[global, refine] Instance prng : PRNG :=
  {| prng_key := Z; tracer := 0%Z; split := children;
     uniform := draw; uniform_vec := draw_vec |}.
Proof.
  all: assert (∀ k lo hi, lo < hi → lo <= draw k lo hi ∧ draw k lo hi < hi)
         as draw_range
         by (intros k lo hi Hlt; unfold draw;
             assert (0 <= frac k ∧ frac k < 1) as [H0 H1]
               by (unfold frac, Qle, Qlt; simpl;
                   pose proof (Z.mod_pos_bound ((k * 37 + 11) `mod` 1009) 16
                                 eq_refl); lia);
             split; nra).
  - intros. unfold draw_vec. by rewrite length_fmap, length_seq.
  - apply draw_range.
  - intros k n lo hi Hlt. unfold draw_vec.
    apply Forall_fmap, Forall_forall. intros i _. by apply draw_range.
Defined.

(** A model of the right layout: 18 velocities, 19 positions, 4 bodies,
    2 geometries and two pass-through leaves. *)
Definition model : Model vec mat vec :=
  {| nbody := 4;
     geom_friction := [[1; 0.005; 0.0001]; [0.6; 0.005; 0.0001]];
     body_ipos := [[0; 0; 0]; [0.01; 0; 0.02]; [0; 0.05; 0]; [0; -0.05; 0]];
     body_mass := [0; 0.5; 0.2; 0.2];
     qpos0 := replicate 7 0.1 ++ replicate 12 0.3;
     dof_frictionloss := replicate 18 0.02;
     dof_armature := replicate 18 0.005;
     others := {[ "gravity" := [0; 0; -9.81]; "geom_size" := [0.1; 0.2] ]} |}.

(** The same model with only 8 leg positions. *)
Definition short_model : Model vec mat vec :=
  tree_replace model (geom_friction model) (body_ipos model)
    (body_mass model) (replicate 7 0.1 ++ replicate 8 0.3)
    (dof_frictionloss model) (dof_armature model).

(** A model with the world body alone: there is no body 1. *)
Definition one_body_model : Model vec mat vec :=
  {| nbody := 1;
     geom_friction := [[1; 0.005; 0.0001]];
     body_ipos := [[0; 0; 0]];
     body_mass := [2];
     qpos0 := replicate 19 0.1;
     dof_frictionloss := replicate 18 0.02;
     dof_armature := replicate 18 0.005;
     others := ∅ |}.

(** The first model with a torso of mass 1.2. *)
Definition heavy_model : Model vec mat vec :=
  tree_replace model (geom_friction model) (body_ipos model)
    [0; 1.2; 0.2; 0.2] (qpos0 model)
    (dof_frictionloss model) (dof_armature model).

Definition seeds : list Z := [5; 7; 11]%Z.

End Toy.

(** ** The source over a library with hidden state

    The same program, written against a library that may keep state
    between calls: every library call takes the hidden state and returns
    the next one, and the program threads it in the order the source makes
    its calls.  An array operation that raises leaves the state as it
    is. *)

Module Hidden.

Class Library : Type := {
  world : Type;
  hkey : Type;
  placeholder : hkey;
  hsplit : hkey → world → (hkey * hkey) * world;
  huniform : hkey → Q → Q → world → Q * world;
  huniform_vec : hkey → nat → Q → Q → world → vec * world;
}.

Section program.
Context `{L : Library} {O : Type}.

Definition run (A : Type) : Type := world → result A * world.

Definition ret {A} (a : A) : run A := λ w, (Ok a, w).

Definition lift {A} (r : result A) : run A := λ w, (r, w).

Definition call {A} (op : world → A * world) : run A :=
  λ w, let '(a, w') := op w in (Ok a, w').

Definition bind {A B} (f : A → run B) (m : run A) : run B :=
  λ w, match m w with
       | (Ok a, w') => f a w'
       | (Err e, w') => (Err e, w')
       end.

#[global] Instance run_bind : MBind run := @bind.

Definition rand_dynamics (model : Model vec mat O) (rng : hkey)
  : run (mat * mat * vec * vec * vec * vec) :=
  (* Floor friction: =U(0.4, 1.0). *)
  '(rng, key) ← call (hsplit rng);
  friction ← call (huniform key FLOOR_FRICTION_MIN FLOOR_FRICTION_MAX);
  geom_friction ← lift
    (jnp.at2_set FLOOR_GEOM_ID 0 (geom_friction model) friction);
  (* Scale static friction. *)
  '(rng, key) ← call (hsplit rng);
  scale ← call (huniform_vec key 12
                  DOF_FRICTIONLOSS_SCALE_MIN DOF_FRICTIONLOSS_SCALE_MAX);
  frictionloss ← lift
    (jnp.multiply (jnp.slice_from 6 (dof_frictionloss model)) scale);
  dof_frictionloss ← lift
    (jnp.at_from_set 6 (dof_frictionloss model) frictionloss);
  (* Scale armature. *)
  '(rng, key) ← call (hsplit rng);
  scale ← call (huniform_vec key 12 ARMAUTRE_SCALE_MIN ARMAUTRE_SCALE_MAX);
  armature ← lift
    (jnp.multiply (jnp.slice_from 6 (dof_armature model)) scale);
  dof_armature ← lift (jnp.at_from_set 6 (dof_armature model) armature);
  (* Jitter center of mass position. *)
  '(rng, key) ← call (hsplit rng);
  dpos ← call (huniform_vec key 3 COM_POS_JITTER_MIN COM_POS_JITTER_MAX);
  torso_ipos ← lift (jnp.getitem TORSO_BODY_ID (body_ipos model));
  torso_ipos ← lift (jnp.add torso_ipos dpos);
  body_ipos ← lift
    (jnp.at_row_set TORSO_BODY_ID (body_ipos model) torso_ipos);
  (* Scale all link masses. *)
  '(rng, key) ← call (hsplit rng);
  dmass ← call (huniform_vec key (nbody model)
                  LINK_MASS_SCALE_MIN LINK_MASS_SCALE_MAX);
  scaled ← lift (jnp.multiply (body_mass model) dmass);
  body_mass ← lift (jnp.at_from_set 0 (body_mass model) scaled);
  (* Add mass to torso. *)
  '(rng, key) ← call (hsplit rng);
  dmass ← call (huniform key ADDED_MASS_MIN ADDED_MASS_MAX);
  torso_mass ← lift (jnp.getitem TORSO_BODY_ID body_mass);
  body_mass ← lift (jnp.at_set TORSO_BODY_ID body_mass (torso_mass + dmass));
  (* Jitter qpos0. *)
  '(rng, key) ← call (hsplit rng);
  jitter ← call (huniform_vec key 12
                   INIT_QPOS_JITTER_MIN INIT_QPOS_JITTER_MAX);
  let qpos0 := qpos0 model in
  jittered ← lift (jnp.add (jnp.slice_from 7 qpos0) jitter);
  qpos0 ← lift (jnp.at_from_set 7 qpos0 jittered);
  ret (geom_friction, body_ipos, body_mass, qpos0,
       dof_frictionloss, dof_armature).

Fixpoint map_run {A} (f : hkey → run A) (xs : list hkey) : run (list A) :=
  match xs with
  | [] => ret []
  | x :: xs' => y ← f x; ys ← map_run f xs'; ret (y :: ys)
  end.

Definition vmap {A B C D E F} (f : hkey → run (A * B * C * D * E * F))
    (xs : list hkey)
  : run (list A * list B * list C * list D * list E * list F) :=
  _ ← f placeholder; rs ← map_run f xs; ret (stack6 rs).

Definition domain_randomize (model : Model vec mat O) (rng : list hkey)
  : run (Model (list vec) (list mat) O * Model axis axis axis) :=
  '(friction, body_ipos, body_mass, qpos0, dof_frictionloss, dof_armature)
    ← vmap (rand_dynamics model) rng;
  let in_axes : Model axis axis axis :=
    tree_map (λ _, None) (λ _, None) (λ _, None) model in
  let in_axes :=
    tree_replace in_axes (Some 0%nat) (Some 0%nat)
      (Some 0%nat) (Some 0%nat) (Some 0%nat) (Some 0%nat) in
  let model :=
    tree_replace model friction body_ipos
      body_mass qpos0 dof_frictionloss dof_armature in
  ret (model, in_axes).



End program.
End Hidden.

(** A library whose results are those of a generator [G], and which also
    keeps a hidden state it advances at every call. *)
Definition of_prng (G : PRNG) (W : Type) (tick : W → W) : Hidden.Library :=
  {| Hidden.world := W;
     Hidden.hkey := prng_key;
     Hidden.placeholder := tracer;
     Hidden.hsplit k w := (split k, tick w);
     Hidden.huniform k lo hi w := (uniform k lo hi, tick w);
     Hidden.huniform_vec k n lo hi w := (uniform_vec k n lo hi, tick w) |}.

(** A library whose draws read a hidden call counter. *)
Definition leaky : Hidden.Library :=
  {| Hidden.world := Z;
     Hidden.hkey := Z;
     Hidden.placeholder := 0%Z;
     Hidden.hsplit k w := (Toy.children k, (w + 1)%Z);
     Hidden.huniform k lo hi w := (Toy.draw (k + w) lo hi, (w + 1)%Z);
     Hidden.huniform_vec k n lo hi w :=
       (Toy.draw_vec (k + w) n lo hi, (w + 1)%Z) |}.

(** The outcome of a computation over [of_prng G W tick] is [r] from every
    hidden state. *)
Definition returns `{G : PRNG} {W : Type} (tick : W → W) {A}
    (m : Hidden.run (L:=of_prng G W tick) A) (r : result A) : Prop :=
  ∀ w, (m w).1 = r.

(** ** The batched output, slice by slice *)

(** The model environment [j] steps with: batched leaves are indexed at
    [j], every other leaf is shared. *)
Definition env_model {O} (j : nat) (out : Model (list vec) (list mat) O)
  : option (Model vec mat O) :=
  gf ← geom_friction out !! j;
  bi ← body_ipos out !! j;
  bm ← body_mass out !! j;
  q ← qpos0 out !! j;
  fl ← dof_frictionloss out !! j;
  ar ← dof_armature out !! j;
  Some (tree_replace out gf bi bm q fl ar).

Section batched_output.
Context `{G : PRNG} {O : Type}.
Implicit Types (model : Model vec mat O) (seeds : list prng_key).

(** The stack of the perturbed models of a seed batch. *)
Definition stacked model seeds : Model (list vec) (list mat) O :=
  tree_replace model
    ((λ s, geom_friction (Spec.perturb model s)) <$> seeds)
    ((λ s, body_ipos (Spec.perturb model s)) <$> seeds)
    ((λ s, body_mass (Spec.perturb model s)) <$> seeds)
    ((λ s, qpos0 (Spec.perturb model s)) <$> seeds)
    ((λ s, dof_frictionloss (Spec.perturb model s)) <$> seeds)
    ((λ s, dof_armature (Spec.perturb model s)) <$> seeds).

(** The axis specification the source builds. *)
Definition axes model : Model axis axis axis :=
  tree_replace
    (tree_map (λ _, None) (λ _, None) (λ _, None) model : Model axis axis axis)
    (Some 0%nat) (Some 0%nat) (Some 0%nat) (Some 0%nat) (Some 0%nat)
    (Some 0%nat).
End batched_output.

(** ** Leaves by name

    The six names are the keys of the two [tree_replace] dictionaries of
    the source. *)

Definition randomized_fields : list string :=
  ["geom_friction"; "body_ipos"; "body_mass"; "qpos0";
   "dof_frictionloss"; "dof_armature"].

Definition leaf_names {V M O} (m : Model V M O) : gset string :=
  list_to_set randomized_fields ∪ dom (others m).

Definition leaf {A} (f : string) (m : Model A A A) : option A :=
  if decide (f = "geom_friction") then Some (geom_friction m)
  else if decide (f = "body_ipos") then Some (body_ipos m)
  else if decide (f = "body_mass") then Some (body_mass m)
  else if decide (f = "qpos0") then Some (qpos0 m)
  else if decide (f = "dof_frictionloss") then Some (dof_frictionloss m)
  else if decide (f = "dof_armature") then Some (dof_armature m)
  else others m !! f.

(** Entry [(r, c)] of a rank-2 array. *)
Definition entry (x : mat) (r c : nat) : option Q := x !! r ≫= (.!! c).

(** The shape of a rank-2 array: the length of each of its rows. *)
Definition shape2 (x : mat) : list nat := length <$> x.

(** A value in the closed interval from [lo] to [hi]. *)
Definition within (lo hi x : Q) : Prop := lo <= x ∧ x <= hi.

(** ** Outcomes compared up to their values

    Two runs agree when both fail with the same error or both succeed with
    related values. *)

Definition agree {A B} (R : A → B → Prop) (r1 : result A) (r2 : result B)
  : Prop :=
  match r1, r2 with
  | Ok a, Ok b => R a b
  | Err e1, Err e2 => e1 = e2
  | _, _ => False
  end.

Definition same_length (xs ys : vec) : Prop := length xs = length ys.

Definition any_pair {A B} (_ : A) (_ : B) : Prop := True.

(** ** Models with the array shapes of the physics engine

    One mass and one three-coordinate offset per body, three friction
    coefficients per geometry; the numbers of bodies, geometries and
    degrees of freedom are left open. *)

Definition mjx_shaped {O} (m : Model vec mat O) : Prop :=
  length (body_mass m) = nbody m ∧
  length (body_ipos m) = nbody m ∧
  Forall (λ r, length r = 3%nat) (body_ipos m) ∧
  Forall (λ r, length r = 3%nat) (geom_friction m).

#[global] Instance mjx_shaped_dec {O} (m : Model vec mat O) :
  Decision (mjx_shaped m).
Proof. unfold mjx_shaped. apply _. Defined.

(** Two batched outputs of the same baseline, one after the other. *)
Definition batch_app {V M O} (o1 o2 : Model (list V) (list M) O)
  : Model (list V) (list M) O :=
  tree_replace o1
    (geom_friction o1 ++ geom_friction o2)
    (body_ipos o1 ++ body_ipos o2)
    (body_mass o1 ++ body_mass o2)
    (qpos0 o1 ++ qpos0 o2)
    (dof_frictionloss o1 ++ dof_frictionloss o2)
    (dof_armature o1 ++ dof_armature o2).

(** The batched model whose slices are the given six-tuples. *)
Definition of_rows {O} (model : Model vec mat O)
    (rs : list (mat * mat * vec * vec * vec * vec))
  : Model (list vec) (list mat) O :=
  tree_replace model
    ((λ r, r.1.1.1.1.1) <$> rs) ((λ r, r.1.1.1.1.2) <$> rs)
    ((λ r, r.1.1.1.2) <$> rs) ((λ r, r.1.1.2) <$> rs)
    ((λ r, r.1.2) <$> rs) ((λ r, r.2) <$> rs).

(** * Lemmas *)

(** ** Closed forms of the array operations on well-shaped operands *)

Section array_lemmas.

Lemma only_at_alter {A} (i : nat) (g : A → A) (xs : list A) :
  alter g i xs = Spec.only_at i g xs.
Proof.
  apply list_eq; intros j. unfold Spec.only_at.
  rewrite list_lookup_imap, list_lookup_alter.
  destruct (xs !! j) as [x|] eqn:Hx; simpl;
    repeat case_decide; simplify_eq; rewrite ?Hx; done.
Qed.

Lemma only_at_insert {A} (i : nat) (g : A → A) (xs : list A) (x : A) :
  xs !! i = Some x → <[i:=g x]> xs = Spec.only_at i g xs.
Proof.
  intros Hi. rewrite <- only_at_alter. apply list_eq; intros j.
  rewrite list_lookup_insert, list_lookup_alter.
  pose proof (lookup_lt_Some _ _ _ Hi).
  repeat case_decide; destruct_and?; simplify_eq; try lia; [|done].
  by rewrite Hi.
Qed.

Lemma only_at_lookup_ne {A} (i j : nat) (g : A → A) (xs : list A) :
  j ≠ i → Spec.only_at i g xs !! j = xs !! j.
Proof.
  intros Hne. unfold Spec.only_at. rewrite list_lookup_imap.
  destruct (xs !! j); simpl; [|done]. by case_decide.
Qed.

Lemma only_at_lookup_eq {A} (i : nat) (g : A → A) (xs : list A) :
  Spec.only_at i g xs !! i = g <$> xs !! i.
Proof.
  unfold Spec.only_at. rewrite list_lookup_imap.
  destruct (xs !! i); simpl; [|done]. by case_decide.
Qed.

Lemma length_only_at {A} (i : nat) (g : A → A) (xs : list A) :
  length (Spec.only_at i g xs) = length xs.
Proof. apply length_imap. Qed.

Lemma length_tail_with f k ds xs :
  length (Spec.tail_with f k ds xs) = length xs.
Proof. apply length_imap. Qed.

Lemma tail_with_lookup_lt f k ds xs (i : nat) :
  (i < k)%nat → Spec.tail_with f k ds xs !! i = xs !! i.
Proof.
  intros Hlt. unfold Spec.tail_with. rewrite list_lookup_imap.
  destruct (xs !! i); simpl; [|done]. case_decide; [lia|done].
Qed.

Lemma tail_with_lookup_ge f k ds xs (i : nat) x d :
  xs !! (k + i)%nat = Some x → ds !! i = Some d →
  Spec.tail_with f k ds xs !! (k + i)%nat = Some (f x d).
Proof.
  intros Hx Hd. unfold Spec.tail_with. rewrite list_lookup_imap, Hx. simpl.
  case_decide; [|lia]. replace (k + i - k)%nat with i by lia.
  by rewrite Hd.
Qed.

Lemma take_zip_tail_with f k xs ds :
  length ds = (length xs - k)%nat →
  take k xs ++ zip_with f (drop k xs) ds = Spec.tail_with f k ds xs.
Proof.
  intros Hlen. apply list_eq; intros i. unfold Spec.tail_with.
  rewrite list_lookup_imap.
  destruct (decide (i < k)%nat) as [Hlt|Hge].
  - destruct (decide (i < length xs)%nat) as [Hin|Hout].
    + rewrite lookup_app_l by (rewrite length_take; lia).
      rewrite lookup_take_lt by done.
      destruct (xs !! i); simpl; [|done]. case_decide; [lia|done].
    + rewrite (lookup_ge_None_2 xs i) by lia. simpl.
      apply lookup_ge_None_2.
      rewrite length_app, length_take, length_zip_with, length_drop. lia.
  - destruct (decide (k ≤ length xs)%nat) as [Hk|Hk].
    + rewrite lookup_app_r by (rewrite length_take; lia).
      rewrite length_take, Nat.min_l by done.
      rewrite lookup_zip_with, lookup_drop.
      replace (k + (i - k))%nat with i by lia.
      destruct (xs !! i) as [x|] eqn:Hx; simpl; [|done].
      case_decide; [|lia].
      destruct (ds !! (i - k)%nat) as [d|] eqn:Hd; simpl; [done|].
      apply lookup_ge_None_1 in Hd. apply lookup_lt_Some in Hx. lia.
    + rewrite (lookup_ge_None_2 xs i) by lia. simpl.
      apply lookup_ge_None_2.
      rewrite length_app, length_take, length_zip_with, length_drop. lia.
Qed.

Lemma at_from_set_fits k xs v :
  length v = (length xs - k)%nat → jnp.at_from_set k xs v = Ok (take k xs ++ v).
Proof. intros H. unfold jnp.at_from_set. simpl. by case_decide. Qed.

Lemma getitem_in_range {A} i (xs : list A) x :
  xs !! i = Some x → jnp.getitem i xs = Ok x.
Proof.
  intros H. unfold jnp.getitem. pose proof (lookup_lt_Some _ _ _ H).
  rewrite Nat.min_l by lia. by rewrite H.
Qed.

Lemma at_set_nonempty i xs s :
  xs ≠ [] → jnp.at_set i xs s = Ok (<[i:=s]> xs).
Proof. by destruct xs. Qed.

Lemma at_row_set_fits i x row :
  x ≠ [] → length row = jnp.ncols x → jnp.at_row_set i x row = Ok (<[i:=row]> x).
Proof. intros Hne H. unfold jnp.at_row_set. destruct x; [done|]. by case_decide. Qed.

Lemma at2_set_nonempty i j x s :
  x ≠ [] → jnp.ncols x ≠ 0%nat →
  jnp.at2_set i j x s = Ok (alter (λ r, <[j:=s]> r) i x).
Proof. intros Hne H. unfold jnp.at2_set. destruct x; [done|]. by case_decide. Qed.

End array_lemmas.

Section array_pipelines.

Lemma at2_set_only_at (i j : nat) (x : mat) (s : Q) :
  alter (λ r, <[j:=s]> r) i x = Spec.only_at i (Spec.only_at j (λ _, s)) x.
Proof.
  rewrite <- only_at_alter. apply list_alter_ext; [|done].
  intros r _. by rewrite list_insert_alter, only_at_alter.
Qed.

Lemma broadcast2_same_length f xs ys :
  length xs = length ys → jnp.broadcast2 f xs ys = Ok (zip_with f xs ys).
Proof. intros H. unfold jnp.broadcast2. by case_decide. Qed.

Lemma zip_with_tail_with f xs ds :
  length ds = length xs → zip_with f xs ds = Spec.tail_with f 0 ds xs.
Proof.
  intros Hlen. rewrite <- take_zip_tail_with by lia. done.
Qed.

End array_pipelines.

(** ** Proof automation for the monadic pipeline *)

Lemma bind_Ok {A B} (f : A → result B) (a : A) : (Ok a ≫= f) = f a.
Proof. reflexivity. Qed.

(** Length side conditions. *)
Ltac len :=
  rewrite ?length_zip_with, ?length_drop, ?length_tail_with,
    ?length_only_at, ?uniform_vec_length; lia.

(** Discharge the head operation of a bind chain when its operands fit. *)
Ltac head_ok :=
  lazymatch goal with
  | |- (jnp.broadcast2 ?f ?xs ?ys ≫= _) = _ =>
      rewrite (broadcast2_same_length f xs ys), bind_Ok by len
  | |- (jnp.at_from_set ?k ?xs ?v ≫= _) = _ =>
      rewrite (at_from_set_fits k xs v), bind_Ok by len
  end.

(** ** The source computes the specified procedure *)

Section refinement.
Context `{G : PRNG} {O : Type}.
Implicit Types (model : Model vec mat O) (rng : prng_key).

Lemma perturb_fields model rng :
  let d := Spec.draws (nbody model) rng in
  fields (Spec.perturb model rng) =
    (Spec.only_at 0 (Spec.only_at 0 (λ _, Spec.floor_friction d))
       (geom_friction model),
     Spec.only_at 1 (Spec.tail_with Qplus 0 (Spec.com_jitter d))
       (body_ipos model),
     Spec.only_at 1 (λ x, x + Spec.added_mass d)
       (Spec.tail_with Qmult 0 (Spec.mass_scale d) (body_mass model)),
     Spec.tail_with Qplus 7 (Spec.qpos_jitter d) (qpos0 model),
     Spec.tail_with Qmult 6 (Spec.frictionloss_scale d)
       (dof_frictionloss model),
     Spec.tail_with Qmult 6 (Spec.armature_scale d) (dof_armature model)).
Proof. reflexivity. Qed.

Lemma rand_dynamics_valid model rng :
  valid_model model →
  rand_dynamics model rng = Ok (fields (Spec.perturb model rng)).
Proof.
  intros (Hfl & Har & Hq & Hnb & Hbm & Hbi & Hbic & Hng & Hgc).
  rewrite perturb_fields. unfold Spec.draws, rand_dynamics.
  cbn [Spec.sub_key Spec.floor_friction Spec.frictionloss_scale
       Spec.armature_scale Spec.com_jitter Spec.mass_scale
       Spec.added_mass Spec.qpos_jitter].
  destruct (split rng) as [r1 k1]; cbn [fst snd].
  destruct (split r1) as [r2 k2]; cbn [fst snd].
  destruct (split r2) as [r3 k3]; cbn [fst snd].
  destruct (split r3) as [r4 k4]; cbn [fst snd].
  destruct (split r4) as [r5 k5]; cbn [fst snd].
  destruct (split r5) as [r6 k6]; cbn [fst snd].
  destruct (split r6) as [r7 k7]; cbn [fst snd].
  unfold jnp.multiply, jnp.add, jnp.slice_from, TORSO_BODY_ID, FLOOR_GEOM_ID.
  (* step 1 *)
  rewrite at2_set_nonempty, at2_set_only_at, bind_Ok;
    [|destruct (geom_friction model); simpl in *; [lia|done]
     |destruct (geom_friction model); simpl in *; [lia|inversion Hgc; subst; lia]].
  (* steps 2 and 3 *)
  do 2 (do 2 head_ok; rewrite take_zip_tail_with by len).
  (* step 4 *)
  destruct (lookup_lt_is_Some_2 (body_ipos model) 1 ltac:(lia)) as [row Hrow].
  assert (length row = 3%nat) as Hrowlen
    by (eapply Forall_lookup_1 in Hbic; eauto).
  rewrite (getitem_in_range _ _ _ Hrow), bind_Ok.
  head_ok.
  rewrite at_row_set_fits, bind_Ok;
    [|destruct (body_ipos model); simpl in *; [lia|done]
     |destruct (body_ipos model); simpl in *; [lia|inversion Hbic; subst; len]].
  rewrite zip_with_tail_with by len.
  rewrite (only_at_insert 1 (Spec.tail_with Qplus 0 _) _ _ Hrow).
  (* step 5 *)
  do 2 head_ok. rewrite (take_zip_tail_with _ 0) by len.
  (* step 6 *)
  lazymatch goal with |- context [jnp.getitem 1 ?l] =>
    destruct (lookup_lt_is_Some_2 l 1 ltac:(len)) as [m1 Hm1];
    rewrite (getitem_in_range _ _ _ Hm1), bind_Ok;
    rewrite at_set_nonempty, bind_Ok by (intros E; rewrite E in Hm1; done);
    rewrite (only_at_insert 1 (λ x, x + _) _ _ Hm1)
  end.
  (* step 7 *)
  do 2 head_ok. rewrite take_zip_tail_with by len.
  reflexivity.
Qed.
End refinement.

(** ** The batched output of a valid model *)

Section batch.
Context `{G : PRNG} {O : Type}.
Implicit Types (model : Model vec mat O) (seeds : list prng_key).

Lemma map_result_ok {K A} (f : K → result A) (g : K → A) (xs : list K) :
  (∀ x, f x = Ok (g x)) → map_result f xs = Ok (g <$> xs).
Proof.
  intros Hf. induction xs as [|x xs IH]; [done|].
  simpl. rewrite Hf, IH. done.
Qed.

Lemma domain_randomize_valid model seeds :
  valid_model model →
  domain_randomize model seeds = Ok (stacked model seeds, axes model).
Proof.
  intros Hv. unfold domain_randomize, vmap.
  rewrite (rand_dynamics_valid model tracer Hv), bind_Ok.
  rewrite (map_result_ok _ (λ s, fields (Spec.perturb model s)))
    by (intros s; by apply rand_dynamics_valid).
  unfold stacked, axes, stack6, fields. simpl.
  rewrite <- !list_fmap_compose. reflexivity.
Qed.

Lemma perturb_torso_mass model s m u :
  let d := Spec.draws (nbody model) s in
  body_mass model !! 1%nat = Some m →
  Spec.mass_scale d !! 1%nat = Some u →
  body_mass (Spec.perturb model s) !! 1%nat
  = Some (m * u + Spec.added_mass d).
Proof.
  intros d Hm Hu.
  change (body_mass (Spec.perturb model s)) with
    (Spec.only_at 1 (λ x, x + Spec.added_mass d)
       (Spec.tail_with Qmult 0 (Spec.mass_scale d) (body_mass model))).
  rewrite only_at_lookup_eq.
  pose proof (tail_with_lookup_ge Qmult 0 _ _ 1 m u Hm Hu) as Ht.
  change (0 + 1)%nat with 1%nat in Ht. by rewrite Ht.
Qed.

Lemma env_model_stacked model seeds (j : nat) s :
  seeds !! j = Some s →
  env_model j (stacked model seeds) = Some (Spec.perturb model s).
Proof.
  intros Hj. unfold env_model, stacked. simpl.
  rewrite !list_lookup_fmap, Hj. simpl. reflexivity.
Qed.

Lemma env_model_stacked_None model seeds (j : nat) :
  seeds !! j = None → env_model j (stacked model seeds) = None.
Proof.
  intros Hj. unfold env_model, stacked. simpl.
  rewrite !list_lookup_fmap, Hj. done.
Qed.

End batch.

(** ** The axis specification *)

Section axis_lemmas.
Context `{G : PRNG} {O : Type}.
Implicit Types (model : Model vec mat O) (seeds : list prng_key).

Lemma domain_randomize_axes model seeds out in_axes :
  domain_randomize model seeds = Ok (out, in_axes) → in_axes = axes model.
Proof.
  unfold domain_randomize. destruct (vmap _ _ _) as [t|e]; [|done].
  destruct t as [[[[[? ?] ?] ?] ?] ?]. simpl. by intros [= _ <-].
Qed.

Lemma leaf_names_axes model : leaf_names (axes model) = leaf_names model.
Proof. unfold leaf_names, axes. simpl. by rewrite dom_fmap_L. Qed.

Lemma leaf_axes_randomized model f :
  f ∈ randomized_fields → leaf f (axes model) = Some (Some 0%nat).
Proof.
  unfold randomized_fields. rewrite !elem_of_cons, elem_of_nil.
  intros Hf. repeat (destruct Hf as [->|Hf]; [reflexivity|]). done.
Qed.

Lemma leaf_other {A} (m : Model A A A) f :
  f ∉ randomized_fields → leaf f m = others m !! f.
Proof.
  unfold randomized_fields, leaf. rewrite !not_elem_of_cons.
  intros Hf. destruct_and!. repeat (case_decide; [congruence|]). done.
Qed.

Lemma leaf_axes_other model f :
  f ∉ randomized_fields → f ∈ leaf_names model →
  leaf f (axes model) = Some None.
Proof.
  intros Hf Hin. rewrite leaf_other by done.
  unfold leaf_names in Hin. apply elem_of_union in Hin as [Hin|Hin].
  - by apply elem_of_list_to_set in Hin.
  - simpl. rewrite lookup_fmap. apply elem_of_dom in Hin as [x ->]. done.
Qed.

End axis_lemmas.

(** ** Frame, shape and range lemmas for one environment *)

Section frame_lemmas.
Context `{G : PRNG} {O : Type}.
Implicit Types (model : Model vec mat O) (seeds : list prng_key).

Lemma env_model_stacked_inv model seeds (j : nat) env :
  env_model j (stacked model seeds) = Some env →
  ∃ s, seeds !! j = Some s ∧ env = Spec.perturb model s.
Proof.
  intros Henv. destruct (seeds !! j) as [s|] eqn:Hj.
  - exists s. rewrite (env_model_stacked _ _ _ _ Hj) in Henv.
    split; congruence.
  - by rewrite (env_model_stacked_None _ _ _ Hj) in Henv.
Qed.

Lemma entry_only_at_ne (x : mat) (s : Q) (r c : nat) :
  (r, c) ≠ (0, 0)%nat →
  entry (Spec.only_at 0 (Spec.only_at 0 (λ _, s)) x) r c = entry x r c.
Proof.
  intros Hne. unfold entry.
  destruct (decide (r = 0%nat)) as [->|Hr].
  - rewrite only_at_lookup_eq. destruct (x !! 0%nat) as [row|]; [|done].
    simpl. apply only_at_lookup_ne. congruence.
  - by rewrite only_at_lookup_ne.
Qed.

Lemma entry_only_at_eq (x : mat) (s : Q) :
  x ≠ [] → jnp.ncols x ≠ 0%nat →
  entry (Spec.only_at 0 (Spec.only_at 0 (λ _, s)) x) 0 0 = Some s.
Proof.
  intros Hx Hc. unfold entry. rewrite only_at_lookup_eq.
  destruct x as [|[|a row] rows]; [done|done|].
  change (Spec.only_at 0 (λ _ : Q, s) (a :: row) !! 0%nat = Some s).
  by rewrite only_at_lookup_eq.
Qed.

Lemma shape2_only_at (i : nat) (g : vec → vec) (x : mat) :
  (∀ r, length (g r) = length r) →
  shape2 (Spec.only_at i g x) = shape2 x.
Proof.
  intros Hg. unfold shape2, Spec.only_at. apply list_eq; intros j.
  rewrite !list_lookup_fmap, list_lookup_imap.
  destruct (x !! j) as [r|]; [|done]. simpl.
  case_decide; by rewrite ?Hg.
Qed.

Lemma tail_with_within f k ds xs lo hi (i : nat) x :
  Forall (λ u, lo <= u ∧ u < hi) ds →
  length ds = (length xs - k)%nat →
  xs !! (k + i)%nat = Some x →
  ∃ u, within lo hi u ∧ Spec.tail_with f k ds xs !! (k + i)%nat = Some (f x u).
Proof.
  intros Hds Hlen Hx. pose proof (lookup_lt_Some _ _ _ Hx) as Hlt.
  destruct (lookup_lt_is_Some_2 ds i ltac:(lia)) as [u Hu].
  exists u. split.
  - destruct (Forall_lookup_1 _ _ _ _ Hds Hu) as [H1 H2].
    split; [done|]. by apply Qlt_le_weak.
  - by apply tail_with_lookup_ge.
Qed.

End frame_lemmas.

(** ** Running the source *)

Example floor_friction_of_seed_5 :
  (λ r, entry r.1.1.1.1.1 0 0) <$> rand_dynamics (G:=Toy.prng) Toy.model 5%Z
  = Ok (Some (10600 # 16000)).
Proof. reflexivity. Qed.

Example torso_mass_of_seed_222 :
  (λ r, r.1.1.1.2 !! 1%nat) <$> rand_dynamics (G:=Toy.prng) Toy.model 222%Z
  = Ok (Some (-128000000 # 2560000000)).
Proof. reflexivity. Qed.

(** Eight leg positions instead of twelve: the jitter cannot be broadcast. *)
Example short_model_is_rejected :
  rand_dynamics (G:=Toy.prng) Toy.short_model 5%Z = Err ShapeError.
Proof. reflexivity. Qed.

(** Without a body 1 the torso reads clamp to body 0 and the torso updates
    are dropped: the call succeeds, the offsets are unchanged and the only
    mass is scaled. *)
Example one_body_model_is_accepted :
  (λ r, (r.1.1.1.1.2, r.1.1.1.2))
    <$> rand_dynamics (G:=Toy.prng) Toy.one_body_model 5%Z
  = Ok ([[0; 0; 0]], [2 * (14600 # 16000)]).
Proof. reflexivity. Qed.

(** ** Operations agree on operands of the same shape *)

Lemma agree_bind {A B A' B'} (R : A → B → Prop) (R' : A' → B' → Prop)
    (m1 : result A) (m2 : result B) (f : A → result A') (g : B → result B') :
  agree R m1 m2 → (∀ a b, R a b → agree R' (f a) (g b)) →
  agree R' (m1 ≫= f) (m2 ≫= g).
Proof. destruct m1, m2; simpl; try done. intros H Hf. by apply Hf. Qed.

Lemma agree_eq_refl {A} (r : result A) : agree eq r r.
Proof. by destruct r. Qed.

Lemma broadcast2_agree f xs xs' ys ys' :
  same_length xs xs' → same_length ys ys' →
  agree same_length (jnp.broadcast2 f xs ys) (jnp.broadcast2 f xs' ys').
Proof.
  unfold same_length, jnp.broadcast2. intros Hx Hy.
  repeat case_decide; try lia.
  - simpl. rewrite !length_zip_with. lia.
  - destruct xs as [|x [|??]], xs' as [|x' [|??]]; simpl in *; try lia;
      destruct ys as [|y [|??]], ys' as [|y' [|??]]; simpl in *; try lia;
      try done; unfold same_length; rewrite ?length_fmap; simpl; try lia.
Qed.

Lemma at_from_set_agree k xs v v' :
  same_length v v' →
  agree same_length (jnp.at_from_set k xs v) (jnp.at_from_set k xs v').
Proof.
  unfold same_length, jnp.at_from_set. intros Hv. simpl.
  repeat case_decide; try lia.
  - simpl. rewrite !length_app. lia.
  - destruct v as [|y [|??]], v' as [|y' [|??]]; simpl in *; try lia; try done.
    unfold same_length. by rewrite !length_app, !length_replicate.
Qed.

Lemma getitem_agree {A} i (xs xs' : list A) :
  length xs = length xs' →
  agree any_pair (jnp.getitem i xs) (jnp.getitem i xs').
Proof.
  unfold jnp.getitem. intros Hl. rewrite <- Hl.
  destruct (xs !! _) eqn:H1, (xs' !! _) eqn:H2; simpl; try done.
  - apply lookup_lt_Some in H1. apply lookup_ge_None in H2. lia.
  - apply lookup_lt_Some in H2. apply lookup_ge_None in H1. lia.
Qed.

Lemma at_set_agree i xs xs' s s' :
  same_length xs xs' →
  agree same_length (jnp.at_set i xs s) (jnp.at_set i xs' s').
Proof.
  unfold same_length. destruct xs, xs'; simpl; try done.
  intros Hl. unfold same_length. rewrite !length_insert. done.
Qed.

Lemma at_row_set_agree i x row row' :
  same_length row row' →
  agree any_pair (jnp.at_row_set i x row) (jnp.at_row_set i x row').
Proof.
  unfold same_length, jnp.at_row_set. intros Hl. destruct x as [|r x]; [done|].
  repeat case_decide; try lia; try done.
  destruct row as [|y [|??]], row' as [|y' [|??]]; simpl in *; try lia; done.
Qed.

Lemma at2_set_agree i j x s s' :
  agree any_pair (jnp.at2_set i j x s) (jnp.at2_set i j x s').
Proof. unfold jnp.at2_set. destruct x; [done|]. by case_decide. Qed.

(** ** Failure does not depend on the seed *)

Section seeds.
Context `{G : PRNG} {O : Type}.
Implicit Types (model : Model vec mat O) (seeds : list prng_key).

Lemma rand_dynamics_agree model s1 s2 :
  agree any_pair (rand_dynamics model s1) (rand_dynamics model s2).
Proof.
  unfold rand_dynamics, jnp.multiply, jnp.add.
  repeat lazymatch goal with
  | |- context [split ?r] => destruct (split r) as [? ?]
  end.
  repeat first
    [ apply agree_bind with (R := eq); [apply agree_eq_refl|intros ? ? <-]
    | apply agree_bind with (R := any_pair); [apply at2_set_agree|intros ? ? _]
    | apply agree_bind with (R := same_length);
        [apply broadcast2_agree; unfold same_length;
         rewrite ?uniform_vec_length; done|intros ? ? ?]
    | apply agree_bind with (R := same_length);
        [by apply at_from_set_agree|intros ? ? ?]
    | apply agree_bind with (R := same_length);
        [by apply at_set_agree|intros ? ? ?]
    | apply agree_bind with (R := any_pair);
        [by apply getitem_agree|intros ? ? _]
    | apply agree_bind with (R := any_pair);
        [by apply at_row_set_agree|intros ? ? _] ].
  done.
Qed.


Lemma rand_dynamics_err_any_seed model s1 s2 e :
  rand_dynamics model s1 = Err e → rand_dynamics model s2 = Err e.
Proof.
  intros H1. pose proof (rand_dynamics_agree model s1 s2) as Ha.
  rewrite H1 in Ha. destruct (rand_dynamics model s2); simpl in Ha; [done|].
  by subst.
Qed.

Lemma rand_dynamics_ok_any_seed model s1 s2 v :
  rand_dynamics model s1 = Ok v → ∃ v', rand_dynamics model s2 = Ok v'.
Proof.
  intros H1. pose proof (rand_dynamics_agree model s1 s2) as Ha.
  rewrite H1 in Ha. destruct (rand_dynamics model s2); simpl in Ha; [|done].
  by eexists.
Qed.

End seeds.

(** ** How the call can fail *)

Section failure_lemmas.
Context `{G : PRNG} {O : Type}.
Implicit Types (model : Model vec mat O) (seeds : list prng_key).

Lemma update_tail_ok_inv f k xs ds v1 v2 :
  (2 ≤ length ds)%nat →
  jnp.broadcast2 f (jnp.slice_from k xs) ds = Ok v1 →
  jnp.at_from_set k xs v1 = Ok v2 →
  length ds = (length xs - k)%nat.
Proof.
  intros Hds. unfold jnp.broadcast2, jnp.slice_from, jnp.at_from_set.
  case_decide as Hlen.
  - intros _ _. by rewrite length_drop in Hlen.
  - destruct (drop k xs) as [|x [|x' xs']] eqn:Hdrop.
    + destruct ds as [|d [|d' ds']]; simpl in *; try lia; done.
    + intros [= <-]. rewrite length_fmap. simpl.
      case_decide; [done|].
      destruct ds as [|d [|d' ds']]; simpl in *; try lia; done.
    + destruct ds as [|d [|d' ds']]; simpl in *; try lia; done.
Qed.

Lemma rand_dynamics_ok_layout model rng v :
  rand_dynamics model rng = Ok v →
  length (dof_frictionloss model) = 18%nat ∧
  length (dof_armature model) = 18%nat ∧
  length (qpos0 model) = 19%nat.
Proof.
  unfold rand_dynamics, jnp.multiply, jnp.add.
  repeat lazymatch goal with
  | |- context [split ?r] =>
      destruct (split r) as [? ?]
  end.
  repeat lazymatch goal with
  | |- (?m ≫= _) = Ok _ → _ =>
      destruct m eqn:?; [rewrite bind_Ok|by intros]
  end.
  intros _.
  repeat split.
  all: match goal with
       | H1 : jnp.broadcast2 _ (jnp.slice_from ?k ?xs) ?ds = Ok ?v1,
         H2 : jnp.at_from_set ?k ?xs ?v1 = Ok _ |- length ?xs = _ =>
           assert (length ds = (length xs - k)%nat) as Hl
             by (eapply update_tail_ok_inv;
                 [rewrite uniform_vec_length; lia|exact H1|exact H2]);
           rewrite uniform_vec_length in Hl; lia
       end.
Qed.

Lemma rand_dynamics_ok_nonempty model rng v :
  rand_dynamics model rng = Ok v →
  geom_friction model ≠ [] ∧ body_ipos model ≠ [] ∧ body_mass model ≠ [].
Proof.
  unfold rand_dynamics.
  repeat lazymatch goal with
  | |- context [split ?r] => destruct (split r) as [? ?]
  end.
  repeat lazymatch goal with
  | |- (?m ≫= _) = Ok _ → _ =>
      destruct m eqn:?; [rewrite bind_Ok|by intros]
  end.
  intros _. split; [|split].
  - intros E.
    match goal with H : jnp.at2_set _ _ _ _ = Ok _ |- _ =>
      rewrite E in H; discriminate H end.
  - intros E.
    match goal with H : jnp.getitem _ (body_ipos model) = Ok _ |- _ =>
      rewrite E in H; discriminate H end.
  - intros E.
    match goal with
    | H1 : jnp.at_from_set 0 (body_mass model) ?v = Ok ?a,
      H2 : jnp.getitem _ ?a = Ok _ |- _ =>
        rewrite E in H1; unfold jnp.at_from_set in H1; simpl in H1;
        case_decide as Hlen;
        [destruct v; [|done]; injection H1 as <-; discriminate H2
        |destruct v as [|y [|??]]; try done;
         injection H1 as <-; discriminate H2]
    end.
Qed.

(** An error of the trace is the error of the call, on every batch. *)
Lemma domain_randomize_trace_err model s seeds e :
  rand_dynamics model s = Err e →
  domain_randomize model seeds = Err e.
Proof.
  intros He. unfold domain_randomize, vmap.
  by rewrite (rand_dynamics_err_any_seed model s tracer e He).
Qed.

Lemma domain_randomize_head_err model s seeds e :
  rand_dynamics model s = Err e →
  domain_randomize model (s :: seeds) = Err e.
Proof. apply domain_randomize_trace_err. Qed.

Lemma domain_randomize_empty model :
  valid_model model →
  domain_randomize model [] = Ok (stacked model [], axes model).
Proof. intros Hv. by apply domain_randomize_valid. Qed.

End failure_lemmas.

(** ** Hidden state of the library does not reach the outcome *)

Section hidden_lemmas.
Context `{L : Hidden.Library} {O : Type}.








End hidden_lemmas.

Section pure_link.
Context `{G : PRNG} {W : Type} (tick : W → W) {O : Type}.

Lemma returns_ret {A} (a : A) : returns tick (Hidden.ret a) (Ok a).
Proof. by intros w. Qed.

Lemma returns_lift_bind {A B} (r : result A)
    (f : A → Hidden.run (L:=of_prng G W tick) B) (g : A → result B) :
  (∀ a, returns tick (f a) (g a)) →
  returns tick (Hidden.lift r ≫= f) (r ≫= g).
Proof.
  intros Hf w. unfold mbind, Hidden.run_bind, Hidden.bind, Hidden.lift.
  destruct r; [apply Hf|done].
Qed.

Lemma returns_call_bind {A B} (a : A)
    (f : A → Hidden.run (L:=of_prng G W tick) B) (r : result B) :
  returns tick (f a) r →
  returns tick
    (Hidden.call (L:=of_prng G W tick) (λ w, (a, tick w)) ≫= f) r.
Proof.
  intros Hf w. unfold mbind, Hidden.run_bind, Hidden.bind, Hidden.call.
  apply Hf.
Qed.

Lemma returns_bind {A B} (m : Hidden.run (L:=of_prng G W tick) A)
    (f : A → Hidden.run (L:=of_prng G W tick) B) r (g : A → result B) :
  returns tick m r → (∀ a, returns tick (f a) (g a)) →
  returns tick (m ≫= f) (r ≫= g).
Proof.
  intros Hm Hf w. unfold mbind at 1, Hidden.run_bind, Hidden.bind.
  specialize (Hm w).
  destruct (m w) as [[a|e] w']; simpl in Hm; subst; [apply Hf|done].
Qed.

Lemma returns_rand_dynamics (model : Model vec mat O) rng :
  returns tick (Hidden.rand_dynamics (L:=of_prng G W tick) model rng)
    (rand_dynamics model rng).
Proof.
  unfold Hidden.rand_dynamics, rand_dynamics.
  repeat first
    [ apply returns_ret
    | lazymatch goal with
      | |- returns _ (Hidden.call (Hidden.hsplit ?r) ≫= _) _ =>
          apply (returns_call_bind (split r)); destruct (split r) as [? ?]
      | |- returns _ (Hidden.call _ ≫= _) _ => apply returns_call_bind
      | |- returns _ (Hidden.lift _ ≫= _) _ =>
          apply returns_lift_bind; intros ?
      end ].
Qed.

Lemma returns_map_run {A}
    (f : prng_key → Hidden.run (L:=of_prng G W tick) A)
    (g : prng_key → result A) xs :
  (∀ x, returns tick (f x) (g x)) →
  returns tick (Hidden.map_run (L:=of_prng G W tick) f xs) (map_result g xs).
Proof.
  intros Hf. induction xs as [|x xs IH]; simpl; [apply returns_ret|].
  apply returns_bind; [done|]. intros y.
  apply returns_bind; [done|]. intros ys. apply returns_ret.
Qed.

Lemma returns_domain_randomize (model : Model vec mat O) seeds :
  returns tick (Hidden.domain_randomize (L:=of_prng G W tick) model seeds)
    (domain_randomize model seeds).
Proof.
  unfold Hidden.domain_randomize, domain_randomize, Hidden.vmap, vmap.
  apply returns_bind.
  - apply returns_bind; [apply returns_rand_dynamics|]. intros _.
    change (stack6 <$> ?r) with (r ≫= λ rs, Ok (stack6 rs)).
    apply returns_bind.
    + apply returns_map_run. intros s. apply returns_rand_dynamics.
    + intros rs. apply returns_ret.
  - intros [[[[[? ?] ?] ?] ?] ?]. apply returns_ret.
Qed.

End pure_link.

(** * The claims *)

Section claims.
Context `{G : PRNG} {O : Type}.
Implicit Types (model : Model vec mat O) (seeds : list prng_key).

(** C1.  For every valid baseline model and every seed batch the call
    succeeds, and the output of environment [j] is the result of the seven
    perturbation steps applied in their fixed order to the baseline, step
    [i] drawing from the [i]-th sub-stream split from that environment's
    seed; the inner function applied to the seed alone returns the same six
    arrays.  In particular the torso mass is the baseline torso mass times
    its scale draw, plus the additive draw. *)
Theorem per_environment_procedure model seeds :
  valid_model model →
  ∃ out in_axes,
    domain_randomize model seeds = Ok (out, in_axes) ∧
    ∀ (j : nat) s, seeds !! j = Some s →
      let d := Spec.draws (nbody model) s in
      let stepped :=
        Spec.step7 d (Spec.step6 d (Spec.step5 d (Spec.step4 d
          (Spec.step3 d (Spec.step2 d (Spec.step1 d model)))))) in
      env_model j out = Some stepped ∧
      rand_dynamics model s = Ok (fields stepped) ∧
      ∀ m u, body_mass model !! 1%nat = Some m →
             Spec.mass_scale d !! 1%nat = Some u →
             body_mass stepped !! 1%nat = Some (m * u + Spec.added_mass d).
Proof.
  intros Hv. exists (stacked model seeds), (axes model).
  split; [by apply domain_randomize_valid|].
  intros j s Hj d stepped. split; [by apply env_model_stacked|].
  split; [by apply rand_dynamics_valid|].
  intros m u Hm Hu. by apply perturb_torso_mass.
Qed.

(** C3.  Whenever the call returns, the axis specification has the field
    set of the model, marks a field as batched along dimension 0 exactly
    when it is one of the six randomized fields, marks every other field as
    not batched, and is the same for every seed batch; for a valid model
    the call does return. *)
Theorem axis_specification model seeds :
  (valid_model model → is_ok (domain_randomize model seeds) = true) ∧
  ∀ out in_axes,
    domain_randomize model seeds = Ok (out, in_axes) →
    leaf_names in_axes = leaf_names model ∧
    (∀ f, f ∈ leaf_names model →
       (leaf f in_axes = Some (Some 0%nat) ↔ f ∈ randomized_fields) ∧
       (f ∉ randomized_fields → leaf f in_axes = Some None)) ∧
    (∀ seeds' out' in_axes',
       domain_randomize model seeds' = Ok (out', in_axes') →
       in_axes' = in_axes).
Proof.
  split; [intros Hv; by rewrite domain_randomize_valid|].
  intros out in_axes Hrun.
  apply domain_randomize_axes in Hrun as ->.
  split; [apply leaf_names_axes|]. split.
  - intros f Hf. split; [split|].
    + intros Hleaf.
      destruct (decide (f ∈ randomized_fields)) as [|Hno]; [done|].
      rewrite (leaf_axes_other model f Hno Hf) in Hleaf. done.
    + apply leaf_axes_randomized.
    + intros Hno. by apply leaf_axes_other.
  - intros seeds' out' in_axes' Hrun'.
    by apply domain_randomize_axes in Hrun'.
Qed.

(** C5.  For a valid model and two seed batches of the same length that
    agree everywhere except possibly at position [i], both calls succeed
    with the same axis specification, every slice other than [i] is the
    same in both outputs, and slice [i] is what the inner function returns
    on seed [i] and the baseline model. *)
Theorem batch_independence model seeds1 seeds2 (i : nat) :
  valid_model model →
  length seeds1 = length seeds2 →
  (∀ j : nat, j ≠ i → seeds1 !! j = seeds2 !! j) →
  ∃ out1 out2 in_axes,
    domain_randomize model seeds1 = Ok (out1, in_axes) ∧
    domain_randomize model seeds2 = Ok (out2, in_axes) ∧
    (∀ j : nat, j ≠ i → env_model j out1 = env_model j out2) ∧
    (∀ s, seeds1 !! i = Some s →
       ∃ m, env_model i out1 = Some m ∧
            rand_dynamics model s = Ok (fields m) ∧
            others m = others model ∧ nbody m = nbody model).
Proof.
  intros Hv Hlen Hagree.
  exists (stacked model seeds1), (stacked model seeds2), (axes model).
  split; [by apply domain_randomize_valid|].
  split; [by apply domain_randomize_valid|]. split.
  - intros j Hj. specialize (Hagree j Hj).
    destruct (seeds1 !! j) as [s|] eqn:H1.
    + rewrite (env_model_stacked _ _ _ _ H1).
      symmetry. by apply env_model_stacked.
    + rewrite (env_model_stacked_None _ _ _ H1).
      symmetry. by apply env_model_stacked_None.
  - intros s Hs. exists (Spec.perturb model s).
    split; [by apply env_model_stacked|].
    split; [by apply rand_dynamics_valid|]. done.
Qed.

(** C6.  For a valid model the call succeeds and every leaf other than the
    six randomized ones, and the static body count, is returned as the
    baseline has it: the output holds the baseline's value, shared by all
    slices, and each environment's model reads that same value.  The
    baseline is a value; the output is built from it by functional
    updates. *)
Theorem pass_through model seeds :
  valid_model model →
  ∃ out in_axes,
    domain_randomize model seeds = Ok (out, in_axes) ∧
    others out = others model ∧ nbody out = nbody model ∧
    ∀ (j : nat) env, env_model j out = Some env →
      nbody env = nbody model ∧
      ∀ f, f ∉ randomized_fields →
        others env !! f = others model !! f ∧
        others out !! f = others model !! f.
Proof.
  intros Hv. exists (stacked model seeds), (axes model).
  split; [by apply domain_randomize_valid|]. do 2 (split; [done|]).
  intros j env Henv.
  apply env_model_stacked_inv in Henv as (s & _ & ->). done.
Qed.

(** C7.  For a valid model and every slice: entries 0 to 5 of
    [dof_frictionloss] and of [dof_armature], entries 0 to 6 of [qpos0],
    every entry of [geom_friction] other than [(0, 0)] and every row of
    [body_ipos] other than row 1 are the baseline's. *)
Theorem sub_field_preservation model seeds :
  valid_model model →
  ∃ out in_axes,
    domain_randomize model seeds = Ok (out, in_axes) ∧
    ∀ (j : nat) env, env_model j out = Some env →
      (∀ i : nat, (i < 6)%nat →
         dof_frictionloss env !! i = dof_frictionloss model !! i) ∧
      (∀ i : nat, (i < 6)%nat →
         dof_armature env !! i = dof_armature model !! i) ∧
      (∀ i : nat, (i < 7)%nat → qpos0 env !! i = qpos0 model !! i) ∧
      (∀ r c : nat, (r, c) ≠ (0, 0)%nat →
         entry (geom_friction env) r c = entry (geom_friction model) r c) ∧
      (∀ r : nat, r ≠ 1%nat → body_ipos env !! r = body_ipos model !! r).
Proof.
  intros Hv. exists (stacked model seeds), (axes model).
  split; [by apply domain_randomize_valid|].
  intros j env Henv.
  apply env_model_stacked_inv in Henv as (s & _ & ->).
  repeat split.
  - intros i Hi. by apply tail_with_lookup_lt.
  - intros i Hi. by apply tail_with_lookup_lt.
  - intros i Hi. by apply tail_with_lookup_lt.
  - intros r c Hrc. by apply entry_only_at_ne.
  - intros r Hr. by apply only_at_lookup_ne.
Qed.

(** C9.  For a valid model and a batch of [N] seeds the call succeeds,
    each of the six randomized fields of the output has exactly [N]
    slices, slice [j] is the one computed from seed [j], there is no slice
    beyond the last seed, and within every slice each field has the shape
    of the baseline's field. *)
Theorem shape_invariance model seeds :
  valid_model model →
  ∃ out in_axes,
    domain_randomize model seeds = Ok (out, in_axes) ∧
    (length (geom_friction out) = length seeds ∧
     length (body_ipos out) = length seeds ∧
     length (body_mass out) = length seeds ∧
     length (qpos0 out) = length seeds ∧
     length (dof_frictionloss out) = length seeds ∧
     length (dof_armature out) = length seeds) ∧
    (∀ j : nat, (length seeds ≤ j)%nat → env_model j out = None) ∧
    ∀ (j : nat) s, seeds !! j = Some s →
      ∃ env, env_model j out = Some env ∧
        rand_dynamics model s = Ok (fields env) ∧
        shape2 (geom_friction env) = shape2 (geom_friction model) ∧
        shape2 (body_ipos env) = shape2 (body_ipos model) ∧
        length (body_mass env) = length (body_mass model) ∧
        length (qpos0 env) = length (qpos0 model) ∧
        length (dof_frictionloss env) = length (dof_frictionloss model) ∧
        length (dof_armature env) = length (dof_armature model).
Proof.
  intros Hv. exists (stacked model seeds), (axes model).
  split; [by apply domain_randomize_valid|]. split; [|split].
  - unfold stacked; simpl. by rewrite !length_fmap.
  - intros j Hj. apply env_model_stacked_None. by apply lookup_ge_None_2.
  - intros j s Hj. exists (Spec.perturb model s).
    split; [by apply env_model_stacked|].
    split; [by apply rand_dynamics_valid|].
    change (Spec.perturb model s) with
      (let d := Spec.draws (nbody model) s in
       Spec.step7 d (Spec.step6 d (Spec.step5 d (Spec.step4 d
         (Spec.step3 d (Spec.step2 d (Spec.step1 d model))))))).
    cbn [Spec.step1 Spec.step2 Spec.step3 Spec.step4 Spec.step5 Spec.step6
         Spec.step7 tree_replace geom_friction body_ipos body_mass qpos0
         dof_frictionloss dof_armature].
    repeat split.
    + apply shape2_only_at. intros r. apply length_only_at.
    + apply shape2_only_at. intros r. apply length_tail_with.
    + by rewrite length_only_at, length_tail_with.
    + apply length_tail_with.
    + apply length_tail_with.
    + apply length_tail_with.
Qed.

(** C8.  For a valid model and every slice, each perturbed entry is the
    baseline entry combined with a sample of its declared closed interval:
    the floor friction is a value in [0.4, 1.0]; each leg friction-loss is
    scaled by a factor in [0.9, 1.1]; each leg armature by a factor in
    [1.0, 1.05]; each coordinate of the torso offset is shifted by a value
    in [-0.05, 0.05]; each body mass is scaled by a factor in [0.9, 1.1],
    the torso's then shifted by a value in [-0.5, 0.5]; each leg entry of
    [qpos0] is shifted by a value in [-0.05, 0.05]. *)
Theorem range_containment model seeds :
  valid_model model →
  ∃ out in_axes,
    domain_randomize model seeds = Ok (out, in_axes) ∧
    ∀ (j : nat) env, env_model j out = Some env →
      (∃ u, within 0.4 1.0 u ∧ entry (geom_friction env) 0 0 = Some u) ∧
      (∀ (i : nat) x, dof_frictionloss model !! (6 + i)%nat = Some x →
         ∃ u, within 0.9 1.1 u ∧
              dof_frictionloss env !! (6 + i)%nat = Some (x * u)) ∧
      (∀ (i : nat) x, dof_armature model !! (6 + i)%nat = Some x →
         ∃ u, within 1.0 1.05 u ∧
              dof_armature env !! (6 + i)%nat = Some (x * u)) ∧
      (∀ (c : nat) x, entry (body_ipos model) 1 c = Some x →
         ∃ u, within (-0.05) 0.05 u ∧
              entry (body_ipos env) 1 c = Some (x + u)) ∧
      (∀ (b : nat) x, body_mass model !! b = Some x →
         ∃ u, within 0.9 1.1 u ∧
           if decide (b = 1%nat)
           then ∃ d, within (-0.5) 0.5 d ∧
                     body_mass env !! b = Some (x * u + d)
           else body_mass env !! b = Some (x * u)) ∧
      (∀ (i : nat) x, qpos0 model !! (7 + i)%nat = Some x →
         ∃ u, within (-0.05) 0.05 u ∧
              qpos0 env !! (7 + i)%nat = Some (x + u)).
Proof.
  intros Hv. exists (stacked model seeds), (axes model).
  split; [by apply domain_randomize_valid|].
  intros j env Henv.
  apply env_model_stacked_inv in Henv as (s & _ & ->).
  destruct Hv as (Hfl & Har & Hq & Hnb & Hbm & Hbi & Hbic & Hng & Hgc).
  set (d := Spec.draws (nbody model) s).
  repeat split.
  - exists (Spec.floor_friction d). split.
    + destruct (uniform_range (Spec.sub_key 0 s) 0.4 1.0 eq_refl).
      split; [done|by apply Qlt_le_weak].
    + apply entry_only_at_eq.
      * destruct (geom_friction model); simpl in *; [lia|done].
      * destruct (geom_friction model); simpl in *; [lia|].
        inversion Hgc; subst; lia.
  - intros i x Hx.
    apply (tail_with_within Qmult 6 (Spec.frictionloss_scale d)); [|subst d; simpl; len|done].
    by apply uniform_vec_range.
  - intros i x Hx.
    apply (tail_with_within Qmult 6 (Spec.armature_scale d)); [|subst d; simpl; len|done].
    by apply uniform_vec_range.
  - intros c x Hx. unfold entry in *.
    change (body_ipos (Spec.perturb model s)) with
      (Spec.only_at 1 (Spec.tail_with Qplus 0 (Spec.com_jitter d))
         (body_ipos model)).
    rewrite only_at_lookup_eq.
    destruct (body_ipos model !! 1%nat) as [row|] eqn:Hrow; [|done].
    simpl in Hx |- *.
    apply (tail_with_within Qplus 0 (Spec.com_jitter d) row _ _ c);
      [by apply uniform_vec_range| |done].
    eapply Forall_lookup_1 in Hbic; [|done]. subst d; simpl; len.
  - intros b x Hx.
    destruct (tail_with_within Qmult 0 (Spec.mass_scale d) (body_mass model)
                0.9 1.1 b x) as (u & Hu & Hb);
      [by apply uniform_vec_range|subst d; simpl; len|done|].
    exists u. split; [done|].
    change (body_mass (Spec.perturb model s)) with
      (Spec.only_at 1 (λ x, x + Spec.added_mass d)
         (Spec.tail_with Qmult 0 (Spec.mass_scale d) (body_mass model))).
    change (0 + b)%nat with b in Hb.
    case_decide as Hb1.
    + subst b. exists (Spec.added_mass d). split.
      * destruct (uniform_range (Spec.sub_key 5 s) (-0.5) 0.5 eq_refl).
        split; [done|by apply Qlt_le_weak].
      * by rewrite only_at_lookup_eq, Hb.
    + by rewrite only_at_lookup_ne.
  - intros i x Hx.
    apply (tail_with_within Qplus 7 (Spec.qpos_jitter d)); [|subst d; simpl; len|done].
    by apply uniform_vec_range.
Qed.

(** C2, as the code has it.  The call validates nothing itself and has
    no empty-batch error.  It fails, with the array library's error and
    without output, on every seed batch, empty or not, whenever
    [dof_frictionloss] or [dof_armature] does not have exactly 18 entries,
    [qpos0] does not have exactly 19, or the model has no geometry or no
    body.  For a valid model it succeeds on every seed batch, and on the
    empty batch it returns a batch of zero slices. *)
Theorem failure_modes model seeds :
  (valid_model model →
   ∃ out, domain_randomize model seeds = Ok (out, axes model)) ∧
  (valid_model model → seeds = [] →
   domain_randomize model seeds
   = Ok (tree_replace model [] [] [] [] [] [], axes model)) ∧
  (length (dof_frictionloss model) ≠ 18%nat ∨
   length (dof_armature model) ≠ 18%nat ∨
   length (qpos0 model) ≠ 19%nat ∨
   geom_friction model = [] ∨
   body_ipos model = [] ∨
   body_mass model = [] →
   ∃ e, domain_randomize model seeds = Err e).
Proof.
  split; [|split].
  - intros Hv. exists (stacked model seeds). by apply domain_randomize_valid.
  - intros Hv ->. by apply domain_randomize_empty.
  - intros Hbad.
    destruct (rand_dynamics model tracer) as [v|e] eqn:Hs.
    + destruct (rand_dynamics_ok_layout _ _ _ Hs) as (? & ? & ?).
      destruct (rand_dynamics_ok_nonempty _ _ _ Hs) as (? & ? & ?).
      destruct Hbad as [?|[?|[?|[?|[?|?]]]]]; done.
    + exists e. by eapply domain_randomize_trace_err.
Qed.

End claims.


(** C10.  No perturbed value is clamped or checked for sign.  For a valid
    model the torso mass of every slice is exactly the baseline torso mass
    times entry 1 of the per-body scale draw (bounds 0.9 and 1.1), plus the
    scalar draw with bounds -0.5 and 0.5; and there is a valid model with a
    positive torso mass below 5/9 and a seed whose draws are the scale 0.9
    and the shift -0.5, for which the output torso mass is negative. *)
Theorem no_clamping :
  (∀ (G : PRNG) (O : Type) (model : Model vec mat O) seeds,
     valid_model model →
     ∃ out in_axes,
       domain_randomize model seeds = Ok (out, in_axes) ∧
       ∀ (j : nat) env m,
         env_model j out = Some env →
         body_mass model !! 1%nat = Some m →
         ∃ (k5 k6 : prng_key) u d,
           uniform_vec k5 (nbody model)
             LINK_MASS_SCALE_MIN LINK_MASS_SCALE_MAX !! 1%nat = Some u ∧
           d = uniform k6 ADDED_MASS_MIN ADDED_MASS_MAX ∧
           within 0.9 1.1 u ∧ within (-0.5) 0.5 d ∧
           body_mass env !! 1%nat = Some (m * u + d)) ∧
  (∃ (model : Model vec mat vec) (seed : Z) out in_axes env m u d,
     valid_model model ∧
     domain_randomize (G:=Toy.prng) model [seed] = Ok (out, in_axes) ∧
     env_model 0 out = Some env ∧
     body_mass model !! 1%nat = Some m ∧ 0 < m ∧ m < 5 # 9 ∧
     u == 0.9 ∧ d == -0.5 ∧
     body_mass env !! 1%nat = Some (m * u + d) ∧
     m * u + d < 0).
Proof.
  split.
  - intros G O model seeds Hv.
    exists (stacked model seeds), (axes model).
    split; [by apply domain_randomize_valid|].
    intros j env m Henv Hm.
    apply env_model_stacked_inv in Henv as (s & _ & ->).
    destruct Hv as (_ & _ & _ & Hnb & Hbm & _).
    set (d := Spec.draws (nbody model) s).
    destruct (lookup_lt_is_Some_2 (Spec.mass_scale d) 1
                ltac:(subst d; simpl; len)) as [u Hu].
    exists (Spec.sub_key 4 s), (Spec.sub_key 5 s), u, (Spec.added_mass d).
    split; [exact Hu|]. split; [reflexivity|]. split; [|split].
    + pose proof (uniform_vec_range (Spec.sub_key 4 s) (nbody model)
                    0.9 1.1 eq_refl) as Hall.
      destruct (Forall_lookup_1 _ _ _ _ Hall Hu) as [H1 H2].
      split; [done|by apply Qlt_le_weak].
    + destruct (uniform_range (Spec.sub_key 5 s) (-0.5) 0.5 eq_refl).
      split; [done|by apply Qlt_le_weak].
    + by apply perturb_torso_mass.
  - exists Toy.model, 222%Z.
    exists (stacked (G:=Toy.prng) Toy.model [222%Z]), (axes Toy.model).
    exists (Spec.perturb (G:=Toy.prng) Toy.model 222%Z), 0.5.
    exists (default 0 (Toy.draw_vec 7136 4 0.9 1.1 !! 1%nat)).
    exists (Toy.draw 14272 (-0.5) 0.5).
    split; [by apply (bool_decide_unpack _)|].
    split; [reflexivity|]. split; [reflexivity|].
    split; [reflexivity|]. repeat split.
Qed.

(** * The claims on a concrete model

    [Toy.model] with the seed batch [[5; 7; 11]] and the generator
    [Toy.prng]. *)

Lemma per_environment_procedure_witness :
  valid_model Toy.model ∧
  ∃ out in_axes,
    domain_randomize (G:=Toy.prng) Toy.model Toy.seeds = Ok (out, in_axes) ∧
    env_model 1 out = Some (Spec.perturb (G:=Toy.prng) Toy.model 7%Z).
Proof.
  assert (valid_model Toy.model) as Hv by (by apply (bool_decide_unpack _)).
  split; [exact Hv|].
  destruct (per_environment_procedure (G:=Toy.prng) Toy.model Toy.seeds Hv)
    as (out & in_axes & Hrun & Hall).
  exists out, in_axes. split; [exact Hrun|].
  exact (proj1 (Hall 1%nat 7%Z eq_refl)).
Defined.

Lemma axis_specification_witness :
  valid_model Toy.model ∧
  is_ok (domain_randomize (G:=Toy.prng) Toy.model Toy.seeds) = true ∧
  leaf "qpos0" (axes Toy.model) = Some (Some 0%nat) ∧
  leaf "gravity" (axes Toy.model) = Some None.
Proof.
  assert (valid_model Toy.model) as Hv by (by apply (bool_decide_unpack _)).
  destruct (axis_specification (G:=Toy.prng) Toy.model Toy.seeds)
    as [Hok Hspec].
  split; [exact Hv|]. split; [exact (Hok Hv)|].
  destruct (Hspec (stacked (G:=Toy.prng) Toy.model Toy.seeds)
              (axes Toy.model) eq_refl) as (_ & Hleaf & _).
  split.
  - apply (Hleaf "qpos0"); [by vm_compute|].
    unfold randomized_fields. rewrite !elem_of_cons. tauto.
  - apply (Hleaf "gravity"); [by vm_compute|].
    unfold randomized_fields. rewrite !not_elem_of_cons.
    repeat split; try discriminate. apply not_elem_of_nil.
Defined.


(** The hypothesis of C4 is needed: over a library whose draws read a
    hidden call counter, the second call returns another floor friction
    than the first. *)
Example leaky_library_breaks_determinism :
  let first := Hidden.domain_randomize (L:=leaky) Toy.model [5%Z] 0%Z in
  let second := Hidden.domain_randomize (L:=leaky) Toy.model [5%Z] first.2 in
  first.1 ≠ second.1.
Proof.
  intros first second Heq.
  apply (f_equal (λ r, match r with
                       | Ok (m, _) => Some (geom_friction m)
                       | Err _ => None
                       end)) in Heq.
  vm_compute in Heq. discriminate Heq.
Qed.

Lemma batch_independence_witness :
  valid_model Toy.model ∧
  length Toy.seeds = length [5; 8; 11]%Z ∧
  (∀ j : nat, j ≠ 1%nat → Toy.seeds !! j = [5; 8; 11]%Z !! j) ∧
  ∃ out1 out2 in_axes,
    domain_randomize (G:=Toy.prng) Toy.model Toy.seeds = Ok (out1, in_axes) ∧
    domain_randomize (G:=Toy.prng) Toy.model [5; 8; 11]%Z
    = Ok (out2, in_axes) ∧
    env_model 0 out1 = env_model 0 out2 ∧
    env_model 2 out1 = env_model 2 out2.
Proof.
  assert (valid_model Toy.model) as Hv by (by apply (bool_decide_unpack _)).
  assert (∀ j : nat, j ≠ 1%nat → Toy.seeds !! j = [5; 8; 11]%Z !! j) as Hagree.
  { intros [|[|j]] Hj; [reflexivity|done|reflexivity]. }
  split; [exact Hv|]. split; [reflexivity|]. split; [exact Hagree|].
  destruct (batch_independence (G:=Toy.prng) Toy.model Toy.seeds
              [5; 8; 11]%Z 1 Hv eq_refl Hagree)
    as (out1 & out2 & in_axes & H1 & H2 & Hother & _).
  exists out1, out2, in_axes.
  split; [exact H1|]. split; [exact H2|].
  split; apply Hother; discriminate.
Defined.

Lemma pass_through_witness :
  valid_model Toy.model ∧
  ∃ out in_axes,
    domain_randomize (G:=Toy.prng) Toy.model Toy.seeds = Ok (out, in_axes) ∧
    others out !! "gravity" = Some [0; 0; -9.81].
Proof.
  assert (valid_model Toy.model) as Hv by (by apply (bool_decide_unpack _)).
  split; [exact Hv|].
  destruct (pass_through (G:=Toy.prng) Toy.model Toy.seeds Hv)
    as (out & in_axes & Hrun & Hothers & _).
  exists out, in_axes. split; [exact Hrun|]. by rewrite Hothers.
Defined.

Lemma sub_field_preservation_witness :
  valid_model Toy.model ∧
  ∃ out in_axes,
    domain_randomize (G:=Toy.prng) Toy.model Toy.seeds = Ok (out, in_axes) ∧
    ∀ env, env_model 2 out = Some env →
      dof_armature env !! 5%nat = Some 0.005 ∧
      entry (geom_friction env) 0 1 = Some 0.005.
Proof.
  assert (valid_model Toy.model) as Hv by (by apply (bool_decide_unpack _)).
  split; [exact Hv|].
  destruct (sub_field_preservation (G:=Toy.prng) Toy.model Toy.seeds Hv)
    as (out & in_axes & Hrun & Hkeep).
  exists out, in_axes. split; [exact Hrun|].
  intros env Henv.
  destruct (Hkeep 2%nat env Henv) as (_ & Har & _ & Hgf & _).
  split.
  - rewrite Har by lia. reflexivity.
  - rewrite Hgf by discriminate. reflexivity.
Defined.

Lemma range_containment_witness :
  valid_model Toy.model ∧
  ∃ out in_axes,
    domain_randomize (G:=Toy.prng) Toy.model Toy.seeds = Ok (out, in_axes) ∧
    ∀ env, env_model 0 out = Some env →
      ∃ u, within 0.4 1.0 u ∧ entry (geom_friction env) 0 0 = Some u.
Proof.
  assert (valid_model Toy.model) as Hv by (by apply (bool_decide_unpack _)).
  split; [exact Hv|].
  destruct (range_containment (G:=Toy.prng) Toy.model Toy.seeds Hv)
    as (out & in_axes & Hrun & Hrange).
  exists out, in_axes. split; [exact Hrun|].
  intros env Henv. exact (proj1 (Hrange 0%nat env Henv)).
Defined.

Lemma shape_invariance_witness :
  valid_model Toy.model ∧
  ∃ out in_axes,
    domain_randomize (G:=Toy.prng) Toy.model Toy.seeds = Ok (out, in_axes) ∧
    length (body_mass out) = 3%nat ∧ length (geom_friction out) = 3%nat.
Proof.
  assert (valid_model Toy.model) as Hv by (by apply (bool_decide_unpack _)).
  split; [exact Hv|].
  destruct (shape_invariance (G:=Toy.prng) Toy.model Toy.seeds Hv)
    as (out & in_axes & Hrun & (Hgf & _ & Hbm & _) & _).
  exists out, in_axes. split; [exact Hrun|]. split; [exact Hbm|exact Hgf].
Defined.

Lemma failure_modes_witness :
  valid_model Toy.model ∧
  (∃ out, domain_randomize (G:=Toy.prng) Toy.model Toy.seeds
          = Ok (out, axes Toy.model)) ∧
  (∃ e, domain_randomize (G:=Toy.prng) Toy.short_model Toy.seeds = Err e) ∧
  (∃ e, domain_randomize (G:=Toy.prng) Toy.short_model [] = Err e).
Proof.
  assert (valid_model Toy.model) as Hv by (by apply (bool_decide_unpack _)).
  split; [exact Hv|]. split; [|split].
  - exact (proj1 (failure_modes (G:=Toy.prng) Toy.model Toy.seeds) Hv).
  - apply (failure_modes (G:=Toy.prng) Toy.short_model Toy.seeds).
    right; right; left. simpl. lia.
  - apply (failure_modes (G:=Toy.prng) Toy.short_model []).
    right; right; left. simpl. lia.
Defined.

(** C2, as stated, fails twice.  On the empty seed batch a valid model
    returns a batch of zero slices instead of raising; and a model with a
    single body, which has no body 1, is accepted on a non-empty batch. *)
Lemma empty_batch_and_single_body_are_accepted :
  (valid_model Toy.model ∧
   domain_randomize (G:=Toy.prng) Toy.model []
   = Ok (tree_replace Toy.model [] [] [] [] [] [], axes Toy.model) ∧
   ¬ ∃ e, domain_randomize (G:=Toy.prng) Toy.model [] = Err e) ∧
  (nbody Toy.one_body_model = 1%nat ∧
   length (body_ipos Toy.one_body_model) = 1%nat ∧
   Toy.seeds ≠ [] ∧
   is_ok (domain_randomize (G:=Toy.prng) Toy.one_body_model Toy.seeds) = true ∧
   ¬ ∃ e, domain_randomize (G:=Toy.prng) Toy.one_body_model Toy.seeds = Err e).
Proof.
  split.
  - split; [by apply (bool_decide_unpack _)|].
    split; [reflexivity|]. intros [e He]. discriminate He.
  - split; [reflexivity|]. split; [reflexivity|]. split; [discriminate|].
    split; [reflexivity|]. intros [e He]. discriminate He.
Qed.

(** * Further properties of the source *)

(** ** The rows of a returned batch *)

Section batch_rows.
Context `{G : PRNG} {O : Type}.
Implicit Types (model : Model vec mat O) (seeds : list prng_key).

Lemma map_result_Forall2 {K A} (f : K → result A) xs ys :
  map_result f xs = Ok ys ↔ Forall2 (λ x y, f x = Ok y) xs ys.
Proof.
  revert ys. induction xs as [|x xs IH]; intros ys; simpl.
  - split; [intros [= <-]; constructor|by intros ->%Forall2_nil_inv_l].
  - split.
    + destruct (f x) as [y|e] eqn:Hx; [|done]. simpl.
      destruct (map_result f xs) as [ys'|e] eqn:Hxs; [|done]. simpl.
      intros [= <-]. constructor; [done|]. by apply IH.
    + intros (y & ys' & Hy & Hys & ->)%Forall2_cons_inv_l.
      rewrite Hy. simpl. apply IH in Hys. by rewrite Hys.
Qed.

Lemma domain_randomize_Ok_inv model seeds out in_axes :
  domain_randomize model seeds = Ok (out, in_axes) →
  ∃ rs, Forall2 (λ s r, rand_dynamics model s = Ok r) seeds rs ∧
        out = of_rows model rs ∧
        in_axes = axes model.
Proof.
  unfold domain_randomize, vmap.
  destruct (rand_dynamics model tracer) as [v|e]; [|done].
  rewrite bind_Ok.
  destruct (map_result _ seeds) as [rs|e] eqn:Hrs; [|done].
  simpl. intros [= <- <-]. exists rs.
  split; [by apply map_result_Forall2|]. done.
Qed.

Lemma domain_randomize_Ok_trace model seeds out in_axes :
  domain_randomize model seeds = Ok (out, in_axes) →
  ∀ s, ∃ v, rand_dynamics model s = Ok v.
Proof.
  unfold domain_randomize, vmap.
  destruct (rand_dynamics model tracer) as [v|e] eqn:Ht; [|done].
  intros _ s. by eapply rand_dynamics_ok_any_seed.
Qed.

Lemma domain_randomize_Ok_intro model seeds rs s v :
  rand_dynamics model s = Ok v →
  Forall2 (λ s r, rand_dynamics model s = Ok r) seeds rs →
  domain_randomize model seeds
  = Ok (of_rows model rs, axes model).
Proof.
  intros Hs H%map_result_Forall2. unfold domain_randomize, vmap.
  destruct (rand_dynamics_ok_any_seed model s tracer v Hs) as [v' ->].
  rewrite bind_Ok, H. reflexivity.
Qed.

Lemma env_model_of_rows model rs (j : nat) :
  env_model j (of_rows model rs)
  = (λ r, tree_replace model r.1.1.1.1.1 r.1.1.1.1.2 r.1.1.1.2
            r.1.1.2 r.1.2 r.2) <$> rs !! j.
Proof.
  unfold env_model, of_rows. simpl. rewrite !list_lookup_fmap.
  destruct (rs !! j) as [r|]; reflexivity.
Qed.
End batch_rows.

Section batch_structure.
Context `{G : PRNG} {O : Type}.
Implicit Types (model : Model vec mat O) (seeds : list prng_key).

Lemma rows_exist model seeds :
  (∀ s, ∃ r, rand_dynamics model s = Ok r) →
  ∃ rs, Forall2 (λ s r, rand_dynamics model s = Ok r) seeds rs.
Proof.
  intros Hall. induction seeds as [|s seeds [rs IH]].
  - exists []. constructor.
  - destruct (Hall s) as [r Hr]. exists (r :: rs). by constructor.
Qed.

Lemma domain_randomize_err_transfer model s1 seeds1 s2 seeds2 e :
  domain_randomize model (s1 :: seeds1) = Err e →
  domain_randomize model (s2 :: seeds2) = Err e.
Proof.
  intros H1. destruct (rand_dynamics model s1) as [v|e1] eqn:Hs1.
  - destruct (rows_exist model (s1 :: seeds1)) as [rs Hrs].
    { intros s. by eapply rand_dynamics_ok_any_seed. }
    rewrite (domain_randomize_Ok_intro _ _ _ _ _ Hs1 Hrs) in H1. done.
  - rewrite (domain_randomize_head_err _ _ _ _ Hs1) in H1.
    injection H1 as <-. apply domain_randomize_head_err.
    by eapply rand_dynamics_err_any_seed.
Qed.

(** X1.  Whether the call fails, and with which error, is decided by the
    model alone: on two non-empty seed batches it fails with the same error
    or succeeds on both. *)
Theorem failure_ignores_seeds model seeds1 seeds2 e :
  seeds1 ≠ [] → seeds2 ≠ [] →
  (domain_randomize model seeds1 = Err e ↔
   domain_randomize model seeds2 = Err e).
Proof.
  intros H1 H2.
  destruct seeds1 as [|s1 seeds1]; [done|].
  destruct seeds2 as [|s2 seeds2]; [done|].
  split; apply domain_randomize_err_transfer.
Qed.

(** X2.  For any model, valid or not: whenever the call returns, it returns
    one slice per seed, slice [j] holds exactly the six arrays the inner
    function returns on seed [j], and every other leaf of the slice is the
    baseline's. *)
Theorem slices_of_any_model model seeds out in_axes :
  domain_randomize model seeds = Ok (out, in_axes) →
  (∀ (j : nat) s, seeds !! j = Some s →
     ∃ env, env_model j out = Some env ∧
            rand_dynamics model s = Ok (fields env) ∧
            others env = others model ∧ nbody env = nbody model) ∧
  (∀ j : nat, (length seeds ≤ j)%nat → env_model j out = None).
Proof.
  intros (rs & Hrs & -> & _)%domain_randomize_Ok_inv. split.
  - intros j s Hj.
    destruct (Forall2_lookup_l _ _ _ _ _ Hrs Hj) as (r & Hr & Hok).
    rewrite env_model_of_rows, Hr. simpl. eexists. split; [done|].
    destruct r as [[[[[? ?] ?] ?] ?] ?]. done.
  - intros j Hj. rewrite env_model_of_rows.
    rewrite (lookup_ge_None_2 rs j); [done|].
    by rewrite <- (Forall2_length _ _ _ Hrs).
Qed.

Lemma of_rows_app model rs1 rs2 :
  of_rows model (rs1 ++ rs2) = batch_app (of_rows model rs1) (of_rows model rs2).
Proof. unfold of_rows, batch_app. simpl. by rewrite !fmap_app. Qed.

(** X3.  Batching distributes over concatenation of seed batches: the call
    on [seeds1 ++ seeds2] returns exactly when it returns on both parts,
    and its output is then the output for [seeds1] followed, field by
    field, by the output for [seeds2]. *)
Theorem batches_concatenate model seeds1 seeds2 out in_axes :
  domain_randomize model (seeds1 ++ seeds2) = Ok (out, in_axes) ↔
  ∃ out1 out2,
    domain_randomize model seeds1 = Ok (out1, in_axes) ∧
    domain_randomize model seeds2 = Ok (out2, in_axes) ∧
    out = batch_app out1 out2.
Proof.
  split.
  - intros Hrun.
    destruct (domain_randomize_Ok_trace _ _ _ _ Hrun tracer) as [v Hv].
    apply domain_randomize_Ok_inv in Hrun as (rs & Hrs & -> & ->).
    apply Forall2_app_inv_l in Hrs as (rs1 & rs2 & H1 & H2 & ->).
    exists (of_rows model rs1), (of_rows model rs2).
    split; [by eapply domain_randomize_Ok_intro|].
    split; [by eapply domain_randomize_Ok_intro|].
    apply of_rows_app.
  - intros (out1 & out2 & H1 & H2 & ->).
    destruct (domain_randomize_Ok_trace _ _ _ _ H1 tracer) as [v Hv].
    apply domain_randomize_Ok_inv in H1 as (rs1 & Hrs1 & -> & ->).
    apply domain_randomize_Ok_inv in H2 as (rs2 & Hrs2 & -> & _).
    rewrite <- of_rows_app. eapply domain_randomize_Ok_intro; [exact Hv|].
    by apply Forall2_app.
Qed.

End batch_structure.
Section success.
Context `{G : PRNG} {O : Type}.
Implicit Types (model : Model vec mat O) (seeds : list prng_key).

(** The per-environment result of a model with a single body. *)
Lemma rand_dynamics_single_body model rng :
  mjx_shaped model → nbody model = 1%nat →
  length (dof_frictionloss model) = 18%nat →
  length (dof_armature model) = 18%nat →
  length (qpos0 model) = 19%nat →
  geom_friction model ≠ [] →
  let d := Spec.draws 1 rng in
  rand_dynamics model rng =
    Ok (Spec.only_at 0 (Spec.only_at 0 (λ _, Spec.floor_friction d))
          (geom_friction model),
        body_ipos model,
        zip_with Qmult (body_mass model) (Spec.mass_scale d),
        Spec.tail_with Qplus 7 (Spec.qpos_jitter d) (qpos0 model),
        Spec.tail_with Qmult 6 (Spec.frictionloss_scale d)
          (dof_frictionloss model),
        Spec.tail_with Qmult 6 (Spec.armature_scale d) (dof_armature model)).
Proof.
  intros (Hbm & Hbi & Hbic & Hgc) Hnb Hfl Har Hq Hg d. subst d.
  unfold Spec.draws, rand_dynamics.
  cbn [Spec.sub_key Spec.floor_friction Spec.frictionloss_scale
       Spec.armature_scale Spec.com_jitter Spec.mass_scale
       Spec.added_mass Spec.qpos_jitter].
  destruct (split rng) as [r1 k1]; cbn [fst snd].
  destruct (split r1) as [r2 k2]; cbn [fst snd].
  destruct (split r2) as [r3 k3]; cbn [fst snd].
  destruct (split r3) as [r4 k4]; cbn [fst snd].
  destruct (split r4) as [r5 k5]; cbn [fst snd].
  destruct (split r5) as [r6 k6]; cbn [fst snd].
  destruct (split r6) as [r7 k7]; cbn [fst snd].
  unfold jnp.multiply, jnp.add, jnp.slice_from, TORSO_BODY_ID, FLOOR_GEOM_ID.
  rewrite Hnb in *.
  rewrite at2_set_nonempty, at2_set_only_at, bind_Ok;
    [|done|destruct (geom_friction model); [done|];
            simpl; inversion Hgc; subst; lia].
  do 2 (do 2 head_ok; rewrite take_zip_tail_with by len).
  destruct (body_ipos model) as [|row [|? ?]] eqn:Hrows; simpl in Hbi; try lia.
  assert (length row = 3%nat) as Hrow by (by inversion Hbic).
  change (jnp.getitem 1 [row]) with (Ok row). rewrite bind_Ok.
  head_ok.
  rewrite at_row_set_fits, bind_Ok by (done || (simpl; len)).
  change (<[1%nat:=_]> [row]) with [row].
  destruct (body_mass model) as [|m0 [|? ?]] eqn:Hmass; simpl in Hbm; try lia.
  pose proof (uniform_vec_length k5 1 LINK_MASS_SCALE_MIN LINK_MASS_SCALE_MAX)
    as Hlen.
  destruct (uniform_vec k5 1 LINK_MASS_SCALE_MIN LINK_MASS_SCALE_MAX)
    as [|u0 [|? ?]] eqn:Hdraw; simpl in Hlen; try lia.
  change (jnp.broadcast2 Qmult [m0] [u0]) with (Ok [m0 * u0]).
  rewrite bind_Ok.
  change (jnp.at_from_set 0 [m0] [m0 * u0]) with (Ok [m0 * u0]).
  rewrite bind_Ok.
  change (jnp.getitem 1 [m0 * u0]) with (Ok (m0 * u0)). rewrite bind_Ok.
  change (jnp.at_set 1 [m0 * u0] ?x) with (Ok [m0 * u0]).
  rewrite bind_Ok.
  do 2 head_ok. rewrite take_zip_tail_with by len.
  unfold LINK_MASS_SCALE_MIN, LINK_MASS_SCALE_MAX in Hdraw.
  rewrite Hdraw. reflexivity.
Qed.

Lemma valid_of_shaped model :
  mjx_shaped model → (2 ≤ nbody model)%nat →
  length (dof_frictionloss model) = 18%nat →
  length (dof_armature model) = 18%nat →
  length (qpos0 model) = 19%nat →
  geom_friction model ≠ [] → valid_model model.
Proof.
  intros (Hbm & Hbi & Hbic & Hgc) Hnb Hfl Har Hq Hg.
  repeat split; try done.
  destruct (geom_friction model); [done|simpl; lia].
Qed.

(** X4.  For a model with the array shapes of the physics engine and a
    non-empty seed batch, the call returns exactly when the model has 18
    velocity entries, 19 position entries, at least one body and at least
    one geometry. *)
Theorem success_characterised model seeds :
  mjx_shaped model → seeds ≠ [] →
  ((∃ out in_axes, domain_randomize model seeds = Ok (out, in_axes)) ↔
   length (dof_frictionloss model) = 18%nat ∧
   length (dof_armature model) = 18%nat ∧
   length (qpos0 model) = 19%nat ∧
   (1 ≤ nbody model)%nat ∧
   (1 ≤ length (geom_friction model))%nat).
Proof.
  intros Hshape Hne. destruct seeds as [|s seeds]; [done|]. split.
  - intros (out & in_axes & Hrun).
    apply domain_randomize_Ok_inv in Hrun as (rs & Hrs & _).
    apply Forall2_cons_inv_l in Hrs as (r & rs' & Hr & _ & _).
    destruct (rand_dynamics_ok_layout _ _ _ Hr) as (Hfl & Har & Hq).
    destruct (rand_dynamics_ok_nonempty _ _ _ Hr) as (Hg & Hb & _).
    destruct Hshape as (_ & Hbi & _).
    repeat split; try done.
    + destruct (body_ipos model); [done|simpl in Hbi; lia].
    + destruct (geom_friction model); [done|simpl; lia].
  - intros (Hfl & Har & Hq & Hnb & Hng).
    assert (geom_friction model ≠ []) as Hg
      by (destruct (geom_friction model); [simpl in Hng; lia|done]).
    destruct (rows_exist model (s :: seeds)) as [rs Hrs].
    { intros s'. destruct (decide (nbody model = 1%nat)) as [H1|H1].
      - eexists. by apply rand_dynamics_single_body.
      - eexists. apply rand_dynamics_valid.
        apply valid_of_shaped; try done. lia. }
    pose proof Hrs as (r0 & rs' & Hr0 & _ & _)%Forall2_cons_inv_l.
    eexists _, _. eapply domain_randomize_Ok_intro; [exact Hr0|exact Hrs].
Qed.

(** X5.  When the model has the world body alone, body index 1 is out of
    range and the two torso perturbations are silently dropped: the call
    succeeds, every slice keeps the baseline's centre-of-mass offsets, and
    its single mass is the baseline mass times the scale draw, with nothing
    added. *)
Theorem single_body_torso_steps_dropped model seeds :
  mjx_shaped model → nbody model = 1%nat →
  length (dof_frictionloss model) = 18%nat →
  length (dof_armature model) = 18%nat →
  length (qpos0 model) = 19%nat →
  geom_friction model ≠ [] →
  ∃ out in_axes,
    domain_randomize model seeds = Ok (out, in_axes) ∧
    ∀ (j : nat) env, env_model j out = Some env →
      body_ipos env = body_ipos model ∧
      ∃ k5 : prng_key,
        body_mass env
        = zip_with Qmult (body_mass model)
            (uniform_vec k5 1 LINK_MASS_SCALE_MIN LINK_MASS_SCALE_MAX).
Proof.
  intros Hshape Hnb Hfl Har Hq Hg.
  destruct (rows_exist model seeds) as [rs Hrs].
  { intros s. eexists. by apply rand_dynamics_single_body. }
  exists (of_rows model rs), (axes model).
  split.
  { eapply domain_randomize_Ok_intro; [|exact Hrs].
    by apply (rand_dynamics_single_body model tracer). }
  intros j env Henv. rewrite env_model_of_rows in Henv.
  destruct (rs !! j) as [r|] eqn:Hr; [|done].
  injection Henv as <-.
  destruct (Forall2_lookup_r _ _ _ _ _ Hrs Hr) as (s & _ & Hok).
  rewrite rand_dynamics_single_body in Hok by done.
  injection Hok as <-. simpl. split; [done|].
  by exists (Spec.sub_key 4 s).
Qed.

End success.
Section numeric.
Context `{G : PRNG} {O : Type}.
Implicit Types (model : Model vec mat O) (seeds : list prng_key).

Lemma Forall_only_at {A} (P : A → Prop) (i : nat) (g : A → A) (xs : list A) :
  (∀ x, P x → P (g x)) → Forall P xs → Forall P (Spec.only_at i g xs).
Proof.
  intros Hg Hxs. apply Forall_lookup. intros j y Hy.
  unfold Spec.only_at in Hy. rewrite list_lookup_imap in Hy.
  destruct (xs !! j) as [x|] eqn:Hx; [|done]. simpl in Hy.
  injection Hy as <-. pose proof (Forall_lookup_1 _ _ _ _ Hxs Hx).
  case_decide; auto.
Qed.

Lemma perturb_valid model s :
  valid_model model → valid_model (Spec.perturb model s).
Proof.
  intros (Hfl & Har & Hq & Hnb & Hbm & Hbi & Hbic & Hng & Hgc).
  unfold valid_model.
  change (nbody (Spec.perturb model s)) with (nbody model).
  set (d := Spec.draws (nbody model) s).
  change (dof_frictionloss (Spec.perturb model s)) with
    (Spec.tail_with Qmult 6 (Spec.frictionloss_scale d) (dof_frictionloss model)).
  change (dof_armature (Spec.perturb model s)) with
    (Spec.tail_with Qmult 6 (Spec.armature_scale d) (dof_armature model)).
  change (qpos0 (Spec.perturb model s)) with
    (Spec.tail_with Qplus 7 (Spec.qpos_jitter d) (qpos0 model)).
  change (body_mass (Spec.perturb model s)) with
    (Spec.only_at 1 (λ x, x + Spec.added_mass d)
       (Spec.tail_with Qmult 0 (Spec.mass_scale d) (body_mass model))).
  change (body_ipos (Spec.perturb model s)) with
    (Spec.only_at 1 (Spec.tail_with Qplus 0 (Spec.com_jitter d))
       (body_ipos model)).
  change (geom_friction (Spec.perturb model s)) with
    (Spec.only_at 0 (Spec.only_at 0 (λ _, Spec.floor_friction d))
       (geom_friction model)).
  rewrite !length_only_at, !length_tail_with.
  repeat split; try done.
  - apply Forall_only_at; [|done]. intros r Hr. by rewrite length_tail_with.
  - apply Forall_only_at; [|done]. intros r Hr. by rewrite length_only_at.
Qed.

(** X6.  Validity is kept: for a valid baseline every slice of the output
    is again a valid model, so it can be randomized again, with the same
    axis specification. *)
Theorem slices_stay_valid model seeds :
  valid_model model →
  ∃ out in_axes,
    domain_randomize model seeds = Ok (out, in_axes) ∧
    ∀ (j : nat) env, env_model j out = Some env →
      valid_model env ∧
      ∀ seeds', ∃ out', domain_randomize env seeds' = Ok (out', in_axes).
Proof.
  intros Hv. exists (stacked model seeds), (axes model).
  split; [by apply domain_randomize_valid|].
  intros j env Henv.
  apply env_model_stacked_inv in Henv as (s & _ & ->).
  pose proof (perturb_valid model s Hv) as Hv'.
  split; [done|]. intros seeds'.
  exists (stacked (Spec.perturb model s) seeds').
  by rewrite (domain_randomize_valid _ seeds' Hv').
Qed.

Lemma scale_bounds (lo hi x u : Q) :
  0 <= x → within lo hi u → lo * x <= x * u ∧ x * u <= hi * x.
Proof. intros Hx [H1 H2]. split; nra. Qed.

(** X7.  Scaling keeps the sign and the order of magnitude of a
    non-negative baseline entry: in every slice a leg friction loss lies
    between 0.9 and 1.1 times the baseline, a leg armature between the
    baseline and 1.05 times it (it never decreases), and the mass of a body
    other than the torso between 0.9 and 1.1 times the baseline. *)
Theorem scaled_entries_bounded model seeds :
  valid_model model →
  ∃ out in_axes,
    domain_randomize model seeds = Ok (out, in_axes) ∧
    ∀ (j : nat) env, env_model j out = Some env →
      (∀ (i : nat) x, dof_frictionloss model !! (6 + i)%nat = Some x →
         0 <= x →
         ∃ y, dof_frictionloss env !! (6 + i)%nat = Some y ∧
              0.9 * x <= y ∧ y <= 1.1 * x) ∧
      (∀ (i : nat) x, dof_armature model !! (6 + i)%nat = Some x →
         0 <= x →
         ∃ y, dof_armature env !! (6 + i)%nat = Some y ∧
              x <= y ∧ y <= 1.05 * x) ∧
      (∀ (b : nat) x, b ≠ 1%nat → body_mass model !! b = Some x →
         0 <= x →
         ∃ y, body_mass env !! b = Some y ∧
              0.9 * x <= y ∧ y <= 1.1 * x).
Proof.
  intros Hv. exists (stacked model seeds), (axes model).
  split; [by apply domain_randomize_valid|].
  intros j env Henv.
  apply env_model_stacked_inv in Henv as (s & _ & ->).
  destruct Hv as (Hfl & Har & Hq & Hnb & Hbm & _).
  set (d := Spec.draws (nbody model) s).
  split; [|split].
  - intros i x Hx Hpos.
    destruct (tail_with_within Qmult 6 (Spec.frictionloss_scale d)
                (dof_frictionloss model) 0.9 1.1 i x) as (u & Hu & Hy);
      [by apply uniform_vec_range|subst d; simpl; len|done|].
    exists (x * u). split; [exact Hy|]. by apply scale_bounds.
  - intros i x Hx Hpos.
    destruct (tail_with_within Qmult 6 (Spec.armature_scale d)
                (dof_armature model) 1.0 1.05 i x) as (u & Hu & Hy);
      [by apply uniform_vec_range|subst d; simpl; len|done|].
    exists (x * u). split; [exact Hy|].
    destruct (scale_bounds 1.0 1.05 x u Hpos Hu) as [H1 H2].
    split; [|done]. lra.
  - intros b x Hb Hx Hpos.
    destruct (tail_with_within Qmult 0 (Spec.mass_scale d)
                (body_mass model) 0.9 1.1 b x) as (u & Hu & Hy);
      [by apply uniform_vec_range|subst d; simpl; len|done|].
    change (0 + b)%nat with b in Hy.
    exists (x * u). split; [|by apply scale_bounds].
    change (body_mass (Spec.perturb model s)) with
      (Spec.only_at 1 (λ x, x + Spec.added_mass d)
         (Spec.tail_with Qmult 0 (Spec.mass_scale d) (body_mass model))).
    by rewrite only_at_lookup_ne.
Qed.

(** X8.  From the threshold 5/9 on, the torso mass cannot become
    negative: for a valid model whose baseline torso mass is at least 5/9,
    the torso mass of every slice is non-negative. *)
Theorem torso_mass_nonnegative model seeds :
  valid_model model →
  ∃ out in_axes,
    domain_randomize model seeds = Ok (out, in_axes) ∧
    ∀ (j : nat) env m, env_model j out = Some env →
      body_mass model !! 1%nat = Some m →
      5 # 9 <= m →
      ∃ y, body_mass env !! 1%nat = Some y ∧ 0 <= y.
Proof.
  intros Hv. exists (stacked model seeds), (axes model).
  split; [by apply domain_randomize_valid|].
  intros j env m Henv Hm Hbig.
  apply env_model_stacked_inv in Henv as (s & _ & ->).
  destruct Hv as (_ & _ & _ & Hnb & Hbm & _).
  set (d := Spec.draws (nbody model) s).
  destruct (lookup_lt_is_Some_2 (Spec.mass_scale d) 1
              ltac:(subst d; simpl; len)) as [u Hu].
  pose proof (uniform_vec_range (Spec.sub_key 4 s) (nbody model)
                0.9 1.1 eq_refl) as Hall.
  destruct (Forall_lookup_1 _ _ _ _ Hall Hu) as [Hu1 Hu2].
  destruct (uniform_range (Spec.sub_key 5 s) (-0.5) 0.5 eq_refl)
    as [Hd1 Hd2].
  exists (m * u + Spec.added_mass d).
  split; [by apply perturb_torso_mass|].
  change (Spec.added_mass d) with (uniform (Spec.sub_key 5 s) (-0.5) 0.5).
  nra.
Qed.

End numeric.
Section overwrite.
Context `{G : PRNG}.

Lemma at2_set_entry (x a : mat) (s : Q) :
  jnp.at2_set 0 0 x s = Ok a → entry a 0 0 = Some s.
Proof.
  unfold jnp.at2_set. destruct x as [|[|x0 r] rows]; [done| |].
  - by case_decide.
  - case_decide; [done|]. by intros [= <-].
Qed.

Lemma rand_dynamics_floor_friction {O} (model : Model vec mat O) s v :
  rand_dynamics model s = Ok v →
  entry v.1.1.1.1.1 0 0
  = Some (uniform (split s).2 FLOOR_FRICTION_MIN FLOOR_FRICTION_MAX).
Proof.
  unfold rand_dynamics.
  repeat lazymatch goal with
  | |- context [split ?r] => destruct (split r) as [? ?]
  end.
  repeat lazymatch goal with
  | |- (?m ≫= _) = Ok _ → _ =>
      destruct m eqn:?; [rewrite bind_Ok|by intros]
  end.
  intros [= <-]. simpl.
  match goal with H : jnp.at2_set _ _ _ _ = Ok _ |- _ =>
    by apply at2_set_entry in H end.
Qed.

(** X9.  The ground friction is overwritten, not perturbed: whenever the
    inner function returns, entry [(0, 0)] of the friction array is the
    draw from the first sub-stream of the seed, whatever the baseline held
    there; two models run on the same seed get the same value. *)
Theorem floor_friction_overwritten {O1 O2}
    (model1 : Model vec mat O1) (model2 : Model vec mat O2) s v1 v2 :
  rand_dynamics model1 s = Ok v1 →
  rand_dynamics model2 s = Ok v2 →
  entry v1.1.1.1.1.1 0 0
  = Some (uniform (split s).2 FLOOR_FRICTION_MIN FLOOR_FRICTION_MAX) ∧
  entry v1.1.1.1.1.1 0 0 = entry v2.1.1.1.1.1 0 0.
Proof.
  intros H1 H2.
  rewrite (rand_dynamics_floor_friction _ _ _ H1).
  by rewrite (rand_dynamics_floor_friction _ _ _ H2).
Qed.

End overwrite.

(** * The further properties on concrete models *)

Lemma failure_ignores_seeds_witness :
  Toy.seeds ≠ [] ∧ [222%Z] ≠ [] ∧
  domain_randomize (G:=Toy.prng) Toy.short_model [222%Z] = Err ShapeError.
Proof.
  split; [discriminate|]. split; [discriminate|].
  apply (failure_ignores_seeds (G:=Toy.prng) Toy.short_model
           Toy.seeds [222%Z] ShapeError); [discriminate|discriminate|].
  reflexivity.
Defined.

Lemma slices_of_any_model_witness :
  ∃ out in_axes env,
    domain_randomize (G:=Toy.prng) Toy.one_body_model Toy.seeds
    = Ok (out, in_axes) ∧
    env_model 2 out = Some env ∧
    rand_dynamics (G:=Toy.prng) Toy.one_body_model 11%Z = Ok (fields env).
Proof.
  destruct (domain_randomize (G:=Toy.prng) Toy.one_body_model Toy.seeds)
    as [[out in_axes]|e] eqn:Hrun; [|discriminate Hrun].
  destruct (slices_of_any_model (G:=Toy.prng) Toy.one_body_model Toy.seeds
              out in_axes Hrun) as [Hslice _].
  destruct (Hslice 2%nat 11%Z eq_refl) as (env & Henv & Hrd & _).
  exists out, in_axes, env. done.
Defined.

Lemma success_characterised_witness :
  mjx_shaped Toy.one_body_model ∧ Toy.seeds ≠ [] ∧
  ∃ out in_axes,
    domain_randomize (G:=Toy.prng) Toy.one_body_model Toy.seeds
    = Ok (out, in_axes).
Proof.
  assert (mjx_shaped Toy.one_body_model) as Hs
    by (by apply (bool_decide_unpack _)).
  split; [exact Hs|]. split; [discriminate|].
  apply (success_characterised (G:=Toy.prng) Toy.one_body_model Toy.seeds Hs);
    [discriminate|].
  repeat split; simpl; lia.
Defined.

Lemma single_body_torso_steps_dropped_witness :
  mjx_shaped Toy.one_body_model ∧
  ∃ out in_axes,
    domain_randomize (G:=Toy.prng) Toy.one_body_model Toy.seeds
    = Ok (out, in_axes) ∧
    ∀ env, env_model 0 out = Some env → body_ipos env = [[0; 0; 0]].
Proof.
  assert (mjx_shaped Toy.one_body_model) as Hs
    by (by apply (bool_decide_unpack _)).
  split; [exact Hs|].
  destruct (single_body_torso_steps_dropped (G:=Toy.prng)
              Toy.one_body_model Toy.seeds Hs eq_refl eq_refl eq_refl eq_refl
              ltac:(discriminate))
    as (out & in_axes & Hrun & Hdrop).
  exists out, in_axes. split; [exact Hrun|].
  intros env Henv. exact (proj1 (Hdrop 0%nat env Henv)).
Defined.

Lemma slices_stay_valid_witness :
  valid_model Toy.model ∧
  ∃ out in_axes,
    domain_randomize (G:=Toy.prng) Toy.model Toy.seeds = Ok (out, in_axes) ∧
    ∀ env, env_model 1 out = Some env → valid_model env.
Proof.
  assert (valid_model Toy.model) as Hv by (by apply (bool_decide_unpack _)).
  split; [exact Hv|].
  destruct (slices_stay_valid (G:=Toy.prng) Toy.model Toy.seeds Hv)
    as (out & in_axes & Hrun & Hkeep).
  exists out, in_axes. split; [exact Hrun|].
  intros env Henv. exact (proj1 (Hkeep 1%nat env Henv)).
Defined.

Lemma scaled_entries_bounded_witness :
  valid_model Toy.model ∧
  ∃ out in_axes,
    domain_randomize (G:=Toy.prng) Toy.model Toy.seeds = Ok (out, in_axes) ∧
    ∀ env, env_model 0 out = Some env →
      ∃ y, dof_armature env !! 6%nat = Some y ∧ 0.005 <= y ∧ y <= 1.05 * 0.005.
Proof.
  assert (valid_model Toy.model) as Hv by (by apply (bool_decide_unpack _)).
  split; [exact Hv|].
  destruct (scaled_entries_bounded (G:=Toy.prng) Toy.model Toy.seeds Hv)
    as (out & in_axes & Hrun & Hb).
  exists out, in_axes. split; [exact Hrun|].
  intros env Henv.
  destruct (Hb 0%nat env Henv) as (_ & Har & _).
  apply (Har 0%nat 0.005 eq_refl). discriminate.
Defined.

Lemma torso_mass_nonnegative_witness :
  valid_model Toy.heavy_model ∧
  ∃ out in_axes,
    domain_randomize (G:=Toy.prng) Toy.heavy_model Toy.seeds
    = Ok (out, in_axes) ∧
    ∀ env, env_model 0 out = Some env →
      ∃ y, body_mass env !! 1%nat = Some y ∧ 0 <= y.
Proof.
  assert (valid_model Toy.heavy_model) as Hv
    by (by apply (bool_decide_unpack _)).
  split; [exact Hv|].
  destruct (torso_mass_nonnegative (G:=Toy.prng) Toy.heavy_model Toy.seeds Hv)
    as (out & in_axes & Hrun & Hb).
  exists out, in_axes. split; [exact Hrun|].
  intros env Henv.
  apply (Hb 0%nat env 1.2 Henv eq_refl). discriminate.
Defined.

Lemma floor_friction_overwritten_witness :
  ∃ v1 v2,
    rand_dynamics (G:=Toy.prng) Toy.model 5%Z = Ok v1 ∧
    rand_dynamics (G:=Toy.prng) Toy.one_body_model 5%Z = Ok v2 ∧
    entry v1.1.1.1.1.1 0 0 = entry v2.1.1.1.1.1 0 0.
Proof.
  destruct (rand_dynamics (G:=Toy.prng) Toy.model 5%Z) as [v1|e] eqn:H1;
    [|discriminate H1].
  destruct (rand_dynamics (G:=Toy.prng) Toy.one_body_model 5%Z)
    as [v2|e] eqn:H2; [|discriminate H2].
  exists v1, v2. split; [reflexivity|]. split; [reflexivity|].
  exact (proj2 (floor_friction_overwritten (G:=Toy.prng)
                  Toy.model Toy.one_body_model 5%Z v1 v2 H1 H2)).
Defined.
